(** * Escrow.sol: the marketplace escrow contract, embedded and verified

    The contract [contracts/Escrow.sol] (Solidity ^0.8.19) is embedded
    function by function.  A call is a computation in a state-and-revert
    monad over the contract's storage, its own balance and the two logs the
    chain keeps for it (events emitted, payments sent).  A revert discards
    every effect of the call, so a failing computation carries no state.

    Conventions
    - [uint256] and [address] values are [N]; Solidity 0.8 arithmetic is
      checked, so [+], [*], [-] and [++] revert with a panic out of range;
    - [mapping(uint256 => EscrowTransaction)] is a [gmap]; a slot that was
      never written reads as the all-zero struct;
    - [payable(a).transfer(v)] reverts when the contract holds less than
      [v] or when the account [a] does not accept the payment; which
      accounts accept is part of the call environment;
    - only [createEscrow] is [payable]: the other entry points are only
      ever entered without attached funds. *)

From Stdlib Require Import NArith String List Bool Lia Sorted.
From stdpp Require Import base option gmap.
Import ListNotations.

Local Open Scope string_scope.
Local Open Scope list_scope.
Local Open Scope N_scope.

(** ** Data *)

Definition address := N.

Definition uint256_max : N := 2 ^ 256 - 1.

(** Solidity time unit [1 days] and ether unit [1 ether] (in wei). *)
Definition days : N := 86400.
Definition ether : N := 10 ^ 18.

Inductive EscrowStatus := PENDING | DELIVERED | REFUNDED | DISPUTED.

Definition EscrowStatus_eqb (a b : EscrowStatus) : bool :=
  match a, b with
  | PENDING, PENDING | DELIVERED, DELIVERED
  | REFUNDED, REFUNDED | DISPUTED, DISPUTED => true
  | _, _ => false
  end.

Record EscrowTransaction := mkEscrow {
  buyer : address;
  seller : address;
  amount : N;
  status : EscrowStatus;
  createdAt : N;
  deliveryDeadline : N;
  itemDescription : string;
  buyerConfirmed : bool;
  sellerConfirmed : bool
}.

(** What [escrows[id]] reads as when the slot was never written. *)
Definition zero_escrow : EscrowTransaction :=
  mkEscrow 0 0 0 PENDING 0 0 "" false false.

Inductive Event :=
| EscrowCreated (escrowId : N) (buyer seller : address) (amount : N)
                (itemDescription : string)
| DeliveryConfirmed (escrowId : N) (confirmer : address)
| EscrowCompleted (escrowId sellerAmount platformFeeAmount : N)
| EscrowRefunded (escrowId refundAmount : N)
| DisputeRaised (escrowId : N) (raiser : address).

(** Storage of the contract, its balance, and the logs of the events it
    emitted and of the payments it sent (oldest first). *)
Record Contract := mkContract {
  escrows : gmap N EscrowTransaction;
  nextEscrowId : N;
  platformFee : N;
  platformWallet : address;
  owner : address;
  balance : N;
  events : list Event;
  sent : list (address * N)
}.

(** What a call sees of its environment: [msg.sender], [block.timestamp],
    and which accounts take a plain payment (an externally owned account
    does; a contract without a payable fallback, this one included, does
    not). *)
Record Env := mkEnv {
  msg_sender : address;
  block_timestamp : N;
  receives : address -> bool
}.

(** Why a call reverted: a failed [require] with its reason string, a
    checked-arithmetic panic, or a [transfer] that did not go through. *)
Inductive failure :=
| Revert (reason : string)
| Panic
| TransferFailed.

Inductive result (A : Type) :=
| Ok (a : A) (s : Contract)
| Err (f : failure).
Arguments Ok {A} a s.
Arguments Err {A} f.

(** ** The call monad *)

Definition M (A : Type) : Type := Contract -> result A.

Definition ret {A} (a : A) : M A := fun s => Ok a s.

Definition bind {A B} (m : M A) (k : A -> M B) : M B :=
  fun s => match m s with
           | Ok a s' => k a s'
           | Err f => Err f
           end.

Definition fail {A} (f : failure) : M A := fun _ => Err f.

Definition gets {A} (f : Contract -> A) : M A := fun s => Ok (f s) s.

Definition modify (f : Contract -> Contract) : M unit := fun s => Ok tt (f s).

Declare Scope call_scope.
Delimit Scope call_scope with call.
Bind Scope call_scope with M.

Notation "'let*' x ':=' m 'in' k" := (bind m (fun x => k))
  (at level 10, x name, m at level 100, k at level 200) : call_scope.
Notation "m '>>' k" := (bind m (fun _ => k))
  (at level 90, right associativity) : call_scope.

Local Open Scope call_scope.

Definition require (c : bool) (reason : string) : M unit :=
  if c then ret tt else fail (Revert reason).

(** Checked [uint256] arithmetic. *)
Definition checked_add (a b : N) : M N :=
  if a + b <=? uint256_max then ret (a + b) else fail Panic.

Definition checked_mul (a b : N) : M N :=
  if a * b <=? uint256_max then ret (a * b) else fail Panic.

Definition checked_sub (a b : N) : M N :=
  if b <=? a then ret (a - b) else fail Panic.

(** Field updates. *)
Definition set_escrows (f : gmap N EscrowTransaction -> gmap N EscrowTransaction)
    (s : Contract) : Contract :=
  mkContract (f (escrows s)) (nextEscrowId s) (platformFee s) (platformWallet s)
             (owner s) (balance s) (events s) (sent s).

Definition set_nextEscrowId (n : N) (s : Contract) : Contract :=
  mkContract (escrows s) n (platformFee s) (platformWallet s)
             (owner s) (balance s) (events s) (sent s).

Definition set_platformFee (n : N) (s : Contract) : Contract :=
  mkContract (escrows s) (nextEscrowId s) n (platformWallet s)
             (owner s) (balance s) (events s) (sent s).

Definition set_platformWallet (a : address) (s : Contract) : Contract :=
  mkContract (escrows s) (nextEscrowId s) (platformFee s) a
             (owner s) (balance s) (events s) (sent s).

Definition set_balance (b : N) (s : Contract) : Contract :=
  mkContract (escrows s) (nextEscrowId s) (platformFee s) (platformWallet s)
             (owner s) b (events s) (sent s).

Definition add_event (ev : Event) (s : Contract) : Contract :=
  mkContract (escrows s) (nextEscrowId s) (platformFee s) (platformWallet s)
             (owner s) (balance s) (events s ++ [ev]) (sent s).

Definition add_sent (to : address) (v : N) (s : Contract) : Contract :=
  mkContract (escrows s) (nextEscrowId s) (platformFee s) (platformWallet s)
             (owner s) (balance s) (events s) (sent s ++ [(to, v)]).

Definition set_status (st : EscrowStatus) (r : EscrowTransaction) :=
  mkEscrow (buyer r) (seller r) (amount r) st (createdAt r)
           (deliveryDeadline r) (itemDescription r)
           (buyerConfirmed r) (sellerConfirmed r).

Definition set_buyerConfirmed (b : bool) (r : EscrowTransaction) :=
  mkEscrow (buyer r) (seller r) (amount r) (status r) (createdAt r)
           (deliveryDeadline r) (itemDescription r) b (sellerConfirmed r).

Definition set_sellerConfirmed (b : bool) (r : EscrowTransaction) :=
  mkEscrow (buyer r) (seller r) (amount r) (status r) (createdAt r)
           (deliveryDeadline r) (itemDescription r) (buyerConfirmed r) b.

(** [escrows[escrowId]] as an rvalue, and an assignment through the
    storage reference. *)
Definition escrow_at (escrowId : N) (s : Contract) : EscrowTransaction :=
  default zero_escrow (escrows s !! escrowId).

Definition load (escrowId : N) : M EscrowTransaction := gets (escrow_at escrowId).

Definition update (escrowId : N) (f : EscrowTransaction -> EscrowTransaction) : M unit :=
  modify (fun s => set_escrows (fun m => <[escrowId := f (escrow_at escrowId s)]> m) s).

Definition emit (ev : Event) : M unit := modify (add_event ev).

(** [payable(to).transfer(v)] *)
Definition transfer (e : Env) (to : address) (v : N) : M unit :=
  fun s =>
    if (v <=? balance s) && receives e to
    then Ok tt (add_sent to v (set_balance (balance s - v) s))
    else Err TransferFailed.

(** Funds attached to a payable call are credited before its body runs. *)
Definition credit (v : N) : M unit :=
  modify (fun s => set_balance (balance s + v) s).

(** ** Modifiers *)

Definition onlyOwner (e : Env) : M unit :=
  let* o := gets owner in
  require (msg_sender e =? o) "Only owner can call this function".

Definition onlyBuyer (e : Env) (escrowId : N) : M unit :=
  let* r := load escrowId in
  require (msg_sender e =? buyer r) "Only buyer can call this function".

Definition onlySeller (e : Env) (escrowId : N) : M unit :=
  let* r := load escrowId in
  require (msg_sender e =? seller r) "Only seller can call this function".

Definition onlyParticipant (e : Env) (escrowId : N) : M unit :=
  let* r := load escrowId in
  require ((msg_sender e =? buyer r) || (msg_sender e =? seller r))
          "Only buyer or seller can call this function".

Definition escrowExists (escrowId : N) : M unit :=
  let* next := gets nextEscrowId in
  require (escrowId <? next) "Escrow does not exist".

Definition escrowPending (escrowId : N) : M unit :=
  let* r := load escrowId in
  require (EscrowStatus_eqb (status r) PENDING) "Escrow is not pending".

(** ** Functions *)

(** [constructor(address _platformWallet)], deployed by [deployer] at an
    address that already holds [funds]. *)
Definition constructor_ (deployer _platformWallet : address) (funds : N) : Contract :=
  mkContract ∅ 1 250 _platformWallet deployer funds [] [].

Definition createEscrow (e : Env) (msg_value : N) (seller : address)
    (itemDescription : string) (deliveryDays : N) : M N :=
  credit msg_value >>
  require (0 <? msg_value) "Escrow amount must be greater than 0" >>
  require (negb (seller =? 0)) "Invalid seller address" >>
  require (negb (seller =? msg_sender e)) "Buyer and seller cannot be the same" >>
  require ((0 <? deliveryDays) && (deliveryDays <=? 365)) "Invalid delivery days" >>
  let* escrowId := gets nextEscrowId in
  let* next := checked_add escrowId 1 in
  modify (set_nextEscrowId next) >>
  let* span := checked_mul deliveryDays days in
  let* deliveryDeadline := checked_add (block_timestamp e) span in
  modify (set_escrows (fun m =>
    <[escrowId := mkEscrow (msg_sender e) seller msg_value PENDING
                           (block_timestamp e) deliveryDeadline
                           itemDescription false false]> m)) >>
  emit (EscrowCreated escrowId (msg_sender e) seller msg_value itemDescription) >>
  ret escrowId.

Definition _completeEscrow (e : Env) (escrowId : N) : M unit :=
  update escrowId (set_status DELIVERED) >>
  let* escrow := load escrowId in
  let* fee := gets platformFee in
  let* product := checked_mul (amount escrow) fee in
  let feeAmount := product / 10000 in
  let* sellerAmount := checked_sub (amount escrow) feeAmount in
  let* wallet := gets platformWallet in
  (if 0 <? feeAmount then transfer e wallet feeAmount else ret tt) >>
  transfer e (seller escrow) sellerAmount >>
  emit (EscrowCompleted escrowId sellerAmount feeAmount).

Definition confirmDelivery (e : Env) (escrowId : N) : M unit :=
  escrowExists escrowId >>
  escrowPending escrowId >>
  onlyParticipant e escrowId >>
  let* escrow := load escrowId in
  (if msg_sender e =? buyer escrow
   then update escrowId (set_buyerConfirmed true)
   else update escrowId (set_sellerConfirmed true)) >>
  emit (DeliveryConfirmed escrowId (msg_sender e)) >>
  let* escrow := load escrowId in
  if buyerConfirmed escrow || (buyerConfirmed escrow && sellerConfirmed escrow)
  then _completeEscrow e escrowId
  else ret tt.

Definition requestRefund (e : Env) (escrowId : N) : M unit :=
  escrowExists escrowId >>
  escrowPending escrowId >>
  onlyBuyer e escrowId >>
  let* escrow := load escrowId in
  require (deliveryDeadline escrow <? block_timestamp e)
          "Cannot refund before delivery deadline" >>
  update escrowId (set_status REFUNDED) >>
  let* escrow := load escrowId in
  transfer e (buyer escrow) (amount escrow) >>
  emit (EscrowRefunded escrowId (amount escrow)).

Definition raiseDispute (e : Env) (escrowId : N) : M unit :=
  escrowExists escrowId >>
  escrowPending escrowId >>
  onlyParticipant e escrowId >>
  update escrowId (set_status DISPUTED) >>
  emit (DisputeRaised escrowId (msg_sender e)).

Definition resolveDispute (e : Env) (escrowId : N) (refundToBuyer : bool) : M unit :=
  onlyOwner e >>
  escrowExists escrowId >>
  let* escrow := load escrowId in
  require (EscrowStatus_eqb (status escrow) DISPUTED) "Escrow is not disputed" >>
  if refundToBuyer
  then
    update escrowId (set_status REFUNDED) >>
    let* escrow := load escrowId in
    transfer e (buyer escrow) (amount escrow) >>
    emit (EscrowRefunded escrowId (amount escrow))
  else _completeEscrow e escrowId.

Definition getEscrow (escrowId : N) : M EscrowTransaction :=
  escrowExists escrowId >>
  load escrowId.

Definition updatePlatformFee (e : Env) (newFee : N) : M unit :=
  onlyOwner e >>
  require (newFee <=? 1000) "Fee cannot exceed 10%" >>
  modify (set_platformFee newFee).

Definition updatePlatformWallet (e : Env) (newWallet : address) : M unit :=
  onlyOwner e >>
  require (negb (newWallet =? 0)) "Invalid wallet address" >>
  modify (set_platformWallet newWallet).

Definition emergencyWithdraw (e : Env) : M unit :=
  onlyOwner e >>
  let* o := gets owner in
  let* b := gets balance in
  transfer e o b.

Definition getContractBalance : M N := gets balance.

Definition isDeliveryOverdue (e : Env) (escrowId : N) : M bool :=
  escrowExists escrowId >>
  let* escrow := load escrowId in
  ret (deliveryDeadline escrow <? block_timestamp e).

(** ** Error taxonomy

    The contract reverts with a reason string; callers see five kinds of
    rejection.  The table assigns each reason of [Escrow.sol] its kind. *)

Inductive ErrorKind := NotFound | Forbidden | InvalidState | TooEarly | InvalidInput.

Definition error_kind (reason : string) : option ErrorKind :=
  if (reason =? "Escrow does not exist")%string then Some NotFound
  else if (reason =? "Only owner can call this function")%string then Some Forbidden
  else if (reason =? "Only buyer can call this function")%string then Some Forbidden
  else if (reason =? "Only seller can call this function")%string then Some Forbidden
  else if (reason =? "Only buyer or seller can call this function")%string
       then Some Forbidden
  else if (reason =? "Escrow is not pending")%string then Some InvalidState
  else if (reason =? "Escrow is not disputed")%string then Some InvalidState
  else if (reason =? "Cannot refund before delivery deadline")%string
       then Some TooEarly
  else if (reason =? "Escrow amount must be greater than 0")%string
       then Some InvalidInput
  else if (reason =? "Invalid seller address")%string then Some InvalidInput
  else if (reason =? "Buyer and seller cannot be the same")%string
       then Some InvalidInput
  else if (reason =? "Invalid delivery days")%string then Some InvalidInput
  else if (reason =? "Fee cannot exceed 10%")%string then Some InvalidInput
  else if (reason =? "Invalid wallet address")%string then Some InvalidInput
  else None.

(** The call was rejected, with a reason of kind [k]. *)
Definition fails_as {A} (r : result A) (k : ErrorKind) : Prop :=
  exists reason, r = Err (Revert reason) /\ error_kind reason = Some k.

(** The call was rejected, for whatever reason. *)
Definition is_err {A} (r : result A) : bool :=
  match r with Err _ => true | Ok _ _ => false end.

(** ** Transactions

    A transaction is a call by some account at some time; when the call
    reverts the chain keeps the state it had. *)

Inductive Call :=
| CreateEscrow (msg_value : N) (seller : address) (itemDescription : string)
               (deliveryDays : N)
| ConfirmDelivery (escrowId : N)
| RequestRefund (escrowId : N)
| RaiseDispute (escrowId : N)
| ResolveDispute (escrowId : N) (refundToBuyer : bool)
| UpdatePlatformFee (newFee : N)
| UpdatePlatformWallet (newWallet : address)
| EmergencyWithdraw.

Definition exec (e : Env) (c : Call) : M unit :=
  match c with
  | CreateEscrow v seller descr d => createEscrow e v seller descr d >> ret tt
  | ConfirmDelivery id => confirmDelivery e id
  | RequestRefund id => requestRefund e id
  | RaiseDispute id => raiseDispute e id
  | ResolveDispute id b => resolveDispute e id b
  | UpdatePlatformFee n => updatePlatformFee e n
  | UpdatePlatformWallet a => updatePlatformWallet e a
  | EmergencyWithdraw => emergencyWithdraw e
  end.

(** The state the chain keeps after a call: its result, or the old state
    when it reverted. *)
Definition commit {A} (m : M A) (s : Contract) : Contract :=
  match m s with
  | Ok _ s' => s'
  | Err _ => s
  end.

(** A sequence of transactions, oldest first. *)
Fixpoint run (txs : list (Env * Call)) (s : Contract) : Contract :=
  match txs with
  | [] => s
  | (e, c) :: rest => run rest (commit (exec e c) s)
  end.

(** The states the contract can be in: deployed, then any transactions. *)
Inductive reachable : Contract -> Prop :=
| reach_deploy deployer wallet funds :
    reachable (constructor_ deployer wallet funds)
| reach_commit s e c :
    reachable s -> reachable (commit (exec e c) s).

(** ** Vocabulary of the properties *)

(** An id handed out by [createEscrow]. *)
Definition created (s : Contract) (escrowId : N) : Prop :=
  1 <= escrowId < nextEscrowId s.

(** The status changes the state machine allows. *)
Definition allowed (a b : EscrowStatus) : bool :=
  match a, b with
  | PENDING, DELIVERED | PENDING, REFUNDED | PENDING, DISPUTED => true
  | DISPUTED, DELIVERED | DISPUTED, REFUNDED => true
  | _, _ => false
  end.

(** ... or no change at all. *)
Definition may_become (a b : EscrowStatus) : Prop := a = b \/ allowed a b = true.

(** The statuses in which the funds of an escrow have been paid out. *)
Definition final (st : EscrowStatus) : bool :=
  match st with
  | DELIVERED | REFUNDED => true
  | PENDING | DISPUTED => false
  end.

(** The settlement split of [_completeEscrow]. *)
Definition fee_of (s : Contract) (r : EscrowTransaction) : N :=
  amount r * platformFee s / 10000.

(** The payments [_completeEscrow] makes for the record [r]. *)
Definition settlement (s : Contract) (r : EscrowTransaction) : list (address * N) :=
  (if 0 <? fee_of s r then [(platformWallet s, fee_of s r)] else [])
  ++ [(seller r, amount r - fee_of s r)].

(** Does the event report a payout of escrow [id]? *)
Definition is_payout (id : N) (ev : Event) : bool :=
  match ev with
  | EscrowCompleted i _ _ | EscrowRefunded i _ => i =? id
  | _ => false
  end.

(** How many payouts of escrow [id] the log reports. *)
Fixpoint payouts (id : N) (evs : list Event) : nat :=
  match evs with
  | [] => 0%nat
  | ev :: rest => ((if is_payout id ev then 1 else 0) + payouts id rest)%nat
  end.

(** ** The states the calls lead to *)

(** The state [_completeEscrow] leaves when it goes through. *)
Definition settled (escrowId : N) (s : Contract) : Contract :=
  let r := escrow_at escrowId s in
  mkContract (<[escrowId := set_status DELIVERED r]> (escrows s))
             (nextEscrowId s) (platformFee s) (platformWallet s) (owner s)
             (balance s - amount r)
             (events s ++ [EscrowCompleted escrowId (amount r - fee_of s r) (fee_of s r)])
             (sent s ++ settlement s r).

(** The state a refund of the full amount leaves. *)
Definition refunded (escrowId : N) (s : Contract) : Contract :=
  let r := escrow_at escrowId s in
  mkContract (<[escrowId := set_status REFUNDED r]> (escrows s))
             (nextEscrowId s) (platformFee s) (platformWallet s) (owner s)
             (balance s - amount r)
             (events s ++ [EscrowRefunded escrowId (amount r)])
             (sent s ++ [(buyer r, amount r)]).

(** The state after the confirmation flag of the caller is set and the
    confirmation is logged, before [confirmDelivery] looks at the flags. *)
Definition confirmed (e : Env) (escrowId : N) (s : Contract) : Contract :=
  let r := escrow_at escrowId s in
  add_event (DeliveryConfirmed escrowId (msg_sender e))
    (set_escrows (fun m =>
       <[escrowId := if msg_sender e =? buyer r
                     then set_buyerConfirmed true r
                     else set_sellerConfirmed true r]> m) s).

(** The state a successful [createEscrow] leaves. *)
Definition opened (e : Env) (msg_value : N) (seller : address)
    (itemDescription : string) (deliveryDays : N) (s : Contract) : Contract :=
  mkContract
    (<[nextEscrowId s :=
         mkEscrow (msg_sender e) seller msg_value PENDING (block_timestamp e)
                  (block_timestamp e + deliveryDays * days)
                  itemDescription false false]> (escrows s))
    (nextEscrowId s + 1) (platformFee s) (platformWallet s) (owner s)
    (balance s + msg_value)
    (events s ++ [EscrowCreated (nextEscrowId s) (msg_sender e) seller
                                msg_value itemDescription])
    (sent s).

(** The state [raiseDispute] leaves. *)
Definition disputed (e : Env) (escrowId : N) (s : Contract) : Contract :=
  add_event (DisputeRaised escrowId (msg_sender e))
    (set_escrows (fun m =>
       <[escrowId := set_status DISPUTED (escrow_at escrowId s)]> m) s).

(** The state [emergencyWithdraw] leaves: the whole balance goes to the
    owner. *)
Definition withdrawn (s : Contract) : Contract :=
  add_sent (owner s) (balance s) (set_balance (balance s - balance s) s).

(** Is the call the owner's [emergencyWithdraw]? *)
Definition is_withdraw (c : Call) : bool :=
  match c with EmergencyWithdraw => true | _ => false end.

(** ** The state machine the calls implement *)

(** Every call that goes through is one of these transitions; the index
    tells the owner's withdrawal from the rest. *)
Inductive transition (s : Contract) : bool -> Contract -> Prop :=
| t_open e v sl descr d :
    0 < v -> sl <> 0 -> sl <> msg_sender e ->
    transition s false (opened e v sl descr d s)
| t_confirm e id :
    id < nextEscrowId s ->
    status (escrow_at id s) = PENDING ->
    buyerConfirmed (escrow_at id (confirmed e id s)) = false ->
    transition s false (confirmed e id s)
| t_complete e id :
    id < nextEscrowId s ->
    status (escrow_at id s) = PENDING ->
    buyerConfirmed (escrow_at id (confirmed e id s)) = true ->
    fee_of s (escrow_at id s) <= amount (escrow_at id s) ->
    amount (escrow_at id s) <= balance s ->
    transition s false (settled id (confirmed e id s))
| t_refund id :
    id < nextEscrowId s ->
    status (escrow_at id s) = PENDING \/ status (escrow_at id s) = DISPUTED ->
    amount (escrow_at id s) <= balance s ->
    transition s false (refunded id s)
| t_dispute e id :
    id < nextEscrowId s ->
    status (escrow_at id s) = PENDING ->
    transition s false (disputed e id s)
| t_resolve id :
    id < nextEscrowId s ->
    status (escrow_at id s) = DISPUTED ->
    fee_of s (escrow_at id s) <= amount (escrow_at id s) ->
    amount (escrow_at id s) <= balance s ->
    transition s false (settled id s)
| t_fee n :
    n <= 1000 -> transition s false (set_platformFee n s)
| t_wallet a :
    transition s false (set_platformWallet a s)
| t_withdraw :
    transition s true (withdrawn s).

(** ** Invariant of the reachable states *)

(** Ids are handed out from 1 without gaps and slots beyond the counter
    are unset; a created record has distinct buyer and seller, a seller
    other than the null account and a positive amount; while it is PENDING
    the buyer has not confirmed; the fee is at most 10%; and the log
    reports a payout of an escrow exactly when its status is final. *)
Record wf (s : Contract) : Prop := mk_wf {
  wf_next : 1 <= nextEscrowId s;
  wf_unset : forall id, nextEscrowId s <= id -> escrows s !! id = None;
  wf_rec : forall id, created s id ->
    buyer (escrow_at id s) <> seller (escrow_at id s) /\
    seller (escrow_at id s) <> 0 /\
    0 < amount (escrow_at id s) /\
    (status (escrow_at id s) = PENDING -> buyerConfirmed (escrow_at id s) = false);
  wf_fee : platformFee s <= 1000;
  wf_paid : forall id,
    payouts id (events s) = if final (status (escrow_at id s)) then 1%nat else 0%nat
}.

(** ** Where the funds go *)

(** Nothing leaves the contract and no escrow becomes or stops being
    settled. *)
Definition keeps_funds (s s' : Contract) : Prop :=
  sent s' = sent s /\ balance s <= balance s' /\
  forall id, final (status (escrow_at id s')) = final (status (escrow_at id s)).

(** Escrow [id], not settled so far, is completed: fee to the platform
    wallet, the rest to the seller. *)
Definition completes (id : N) (s s' : Contract) : Prop :=
  let r := escrow_at id s in
  id < nextEscrowId s /\
  final (status r) = false /\
  status (escrow_at id s') = DELIVERED /\
  sent s' = sent s ++ settlement s r /\
  fee_of s r + (amount r - fee_of s r) = amount r /\
  balance s' + amount r = balance s /\
  forall id', id' <> id -> escrow_at id' s' = escrow_at id' s.

(** Escrow [id], not settled so far, is refunded in full to the buyer. *)
Definition refunds (id : N) (s s' : Contract) : Prop :=
  let r := escrow_at id s in
  id < nextEscrowId s /\
  final (status r) = false /\
  status (escrow_at id s') = REFUNDED /\
  sent s' = sent s ++ [(buyer r, amount r)] /\
  balance s' + amount r = balance s /\
  forall id', id' <> id -> escrow_at id' s' = escrow_at id' s.

(** The only ways funds may move between two states. *)
Definition settlement_only (s s' : Contract) : Prop :=
  keeps_funds s s' \/ exists id, completes id s s' \/ refunds id s s'.

(** ** Scenario accounts and states used to exercise the theorems *)

Definition alice : address := 1.
Definition bob : address := 2.
Definition carol : address := 3.
Definition treasury : address := 4.
Definition mallory : address := 5.

(** A call by [who] at time [t], on a chain where every account accepts
    payments. *)
Definition by_ (who : address) (t : N) : Env := mkEnv who t (fun _ => true).

(** Freshly deployed by carol, fees going to the treasury. *)
Definition fresh : Contract := constructor_ carol treasury 0.

(** Alice escrows 100 wei for a purchase from bob, seven days to deliver. *)
Definition one_pending : Contract :=
  run [(by_ alice 1000, CreateEscrow 100 bob "book" 7)] fresh.

(** ... and bob then disputes it. *)
Definition one_disputed : Contract :=
  run [(by_ bob 2000, RaiseDispute 1)] one_pending.

(** ... or the owner sweeps the balance instead. *)
Definition swept : Contract :=
  run [(by_ carol 2000, EmergencyWithdraw)] one_pending.

(** ... or alice confirms delivery. *)
Definition one_delivered : Contract :=
  run [(by_ alice 2000, ConfirmDelivery 1)] one_pending.

(** ** Listing the escrows of an account

    [getUserEscrows] fills a memory array of [nextEscrowId - 1] slots with
    the matching ids, counts them, and copies the filled part into an array
    of that length.  Memory arrays are lists, with the bounds check of an
    indexed access written out; a [for] loop runs its body over the values
    its counter takes. *)

(** The values of [i] in [for (i = lo; i < hi; i++)]. *)
Definition range (lo hi : N) : list N :=
  map N.of_nat (seq (N.to_nat lo) (N.to_nat hi - N.to_nat lo)).

Fixpoint for_each {A} (ids : list N) (body : N -> A -> M A) (acc : A) : M A :=
  match ids with
  | [] => ret acc
  | i :: rest => let* acc' := body i acc in for_each rest body acc'
  end.

(** [new uint256[](n)] *)
Definition new_array (n : N) : list N := replicate (N.to_nat n) 0.

(** [a[i] = v] and [a[i]] on a memory array. *)
Definition mstore (a : list N) (i v : N) : M (list N) :=
  if i <? N.of_nat (length a) then ret (<[N.to_nat i := v]> a) else fail Panic.

Definition mload (a : list N) (i : N) : M N :=
  match a !! N.to_nat i with
  | Some v => ret v
  | None => fail Panic
  end.

(** Body of the first loop: [acc] is the array [userEscrows] and [count]. *)
Definition getUserEscrows_scan (user : address) (i : N) (acc : list N * N)
    : M (list N * N) :=
  let '(userEscrows, count) := acc in
  let* escrow := load i in
  if (buyer escrow =? user) || (seller escrow =? user)
  then
    let* userEscrows := mstore userEscrows count i in
    let* count := checked_add count 1 in
    ret (userEscrows, count)
  else ret (userEscrows, count).

(** Body of the second loop: [result[i] = userEscrows[i]]. *)
Definition getUserEscrows_copy (userEscrows : list N) (i : N) (result : list N)
    : M (list N) :=
  let* v := mload userEscrows i in
  mstore result i v.

Definition getUserEscrows (user : address) : M (list N) :=
  let* next := gets nextEscrowId in
  let* len := checked_sub next 1 in
  let* filled := for_each (range 1 next) (getUserEscrows_scan user)
                          (new_array len, 0) in
  let '(userEscrows, count) := filled in
  for_each (range 0 count) (getUserEscrows_copy userEscrows) (new_array count).

(** Is [user] the buyer or the seller of escrow [id]? *)
Definition is_party (user : address) (s : Contract) (id : N) : bool :=
  (buyer (escrow_at id s) =? user) || (seller (escrow_at id s) =? user).

(** ** Every call, with the conditions under which it goes through *)

Inductive step (e : Env) (s : Contract) : Call -> Contract -> Prop :=
| step_create v sl descr d :
    0 < v -> sl <> 0 -> sl <> msg_sender e -> 1 <= d <= 365 ->
    nextEscrowId s + 1 <= uint256_max ->
    block_timestamp e + d * days <= uint256_max ->
    step e s (CreateEscrow v sl descr d) (opened e v sl descr d s)
| step_confirm id :
    id < nextEscrowId s ->
    status (escrow_at id s) = PENDING ->
    msg_sender e = buyer (escrow_at id s) \/ msg_sender e = seller (escrow_at id s) ->
    buyerConfirmed (escrow_at id (confirmed e id s)) = false ->
    step e s (ConfirmDelivery id) (confirmed e id s)
| step_complete id :
    id < nextEscrowId s ->
    status (escrow_at id s) = PENDING ->
    msg_sender e = buyer (escrow_at id s) \/ msg_sender e = seller (escrow_at id s) ->
    buyerConfirmed (escrow_at id (confirmed e id s)) = true ->
    fee_of s (escrow_at id s) <= amount (escrow_at id s) ->
    amount (escrow_at id s) <= balance s ->
    step e s (ConfirmDelivery id) (settled id (confirmed e id s))
| step_refund id :
    id < nextEscrowId s ->
    status (escrow_at id s) = PENDING ->
    msg_sender e = buyer (escrow_at id s) ->
    deliveryDeadline (escrow_at id s) < block_timestamp e ->
    amount (escrow_at id s) <= balance s ->
    step e s (RequestRefund id) (refunded id s)
| step_dispute id :
    id < nextEscrowId s ->
    status (escrow_at id s) = PENDING ->
    msg_sender e = buyer (escrow_at id s) \/ msg_sender e = seller (escrow_at id s) ->
    step e s (RaiseDispute id) (disputed e id s)
| step_resolve_refund id :
    msg_sender e = owner s ->
    id < nextEscrowId s ->
    status (escrow_at id s) = DISPUTED ->
    amount (escrow_at id s) <= balance s ->
    step e s (ResolveDispute id true) (refunded id s)
| step_resolve_pay id :
    msg_sender e = owner s ->
    id < nextEscrowId s ->
    status (escrow_at id s) = DISPUTED ->
    fee_of s (escrow_at id s) <= amount (escrow_at id s) ->
    amount (escrow_at id s) <= balance s ->
    step e s (ResolveDispute id false) (settled id s)
| step_fee n :
    msg_sender e = owner s -> n <= 1000 ->
    step e s (UpdatePlatformFee n) (set_platformFee n s)
| step_wallet a :
    msg_sender e = owner s -> a <> 0 ->
    step e s (UpdatePlatformWallet a) (set_platformWallet a s)
| step_withdraw :
    msg_sender e = owner s ->
    step e s EmergencyWithdraw (withdrawn s).

(** ** What stays of a record, and what the contract owes *)

(** The terms of an escrow: everything but its status and the two flags. *)
Definition same_terms (r r' : EscrowTransaction) : Prop :=
  buyer r' = buyer r /\ seller r' = seller r /\ amount r' = amount r /\
  createdAt r' = createdAt r /\ deliveryDeadline r' = deliveryDeadline r /\
  itemDescription r' = itemDescription r.

(** What escrow [id] still holds: its amount until it is settled. *)
Definition open_amount (s : Contract) (id : N) : N :=
  if final (status (escrow_at id s)) then 0 else amount (escrow_at id s).

Definition sum_list (l : list N) : N := fold_right N.add 0 l.

(** The total held for the escrows that are not settled yet. *)
Definition open_total (s : Contract) : N :=
  sum_list (map (open_amount s) (range 1 (nextEscrowId s))).

(** No [emergencyWithdraw] among the transactions. *)
Definition no_withdraw (txs : list (Env * Call)) : bool :=
  forallb (fun tx => negb (is_withdraw (snd tx))) txs.

(** Further facts of the reachable states: the counter fits a [uint256],
    slot 0 holds no funds, and every created escrow has its deadline one
    to 365 days after its creation. *)
Record wf_terms (s : Contract) : Prop := mk_wf_terms {
  wt_next : nextEscrowId s <= uint256_max;
  wt_zero : amount (escrow_at 0 s) = 0;
  wt_deadline : forall id, created s id ->
    createdAt (escrow_at id s) + days <= deliveryDeadline (escrow_at id s) /\
    deliveryDeadline (escrow_at id s) <= createdAt (escrow_at id s) + 365 * days /\
    deliveryDeadline (escrow_at id s) <= uint256_max
}.

(** ** Reading the logs *)

(** The ids the [EscrowCreated] events report, oldest first. *)
Fixpoint created_ids (evs : list Event) : list N :=
  match evs with
  | [] => []
  | EscrowCreated id _ _ _ _ :: rest => id :: created_ids rest
  | _ :: rest => created_ids rest
  end.

(** The funds the [EscrowCreated] events report as paid in. *)
Fixpoint deposited (evs : list Event) : N :=
  match evs with
  | [] => 0
  | EscrowCreated _ _ _ amount _ :: rest => amount + deposited rest
  | _ :: rest => deposited rest
  end.

(** The funds the contract has paid out. *)
Definition paid_out (s : Contract) : N := sum_list (map snd (sent s)).

(** Bob's second sale, to carol, after alice's purchase. *)
Definition two_pending : Contract :=
  run [(by_ carol 5000, CreateEscrow 40 bob "lamp" 1)] one_pending.

(** ** Payments forced into the contract

    The contract declares neither [receive] nor [fallback], so a plain
    payment to it reverts and [createEscrow] is the only call that brings
    funds in.  Funds can still be forced into its address without running
    any of its code (another contract's [selfdestruct] naming it as the
    beneficiary, a block reward): such a payment raises
    [address(this).balance] and touches nothing else.  What happens to the
    deployed contract is therefore a transaction calling it or a forced
    payment. *)
Inductive Action : Type :=
| Transact (e : Env) (c : Call)
| ForcePay (v : N).

Definition act (a : Action) (s : Contract) : Contract :=
  match a with
  | Transact e c => commit (exec e c) s
  | ForcePay v => set_balance (balance s + v) s
  end.

(** A sequence of actions, oldest first. *)
Fixpoint history (acts : list Action) (s : Contract) : Contract :=
  match acts with
  | [] => s
  | a :: rest => history rest (act a s)
  end.

(** The total of the payments forced in. *)
Fixpoint forced (acts : list Action) : N :=
  match acts with
  | [] => 0
  | ForcePay v :: rest => v + forced rest
  | Transact _ _ :: rest => forced rest
  end.

(** No [emergencyWithdraw] among the actions. *)
Definition no_withdrawal (acts : list Action) : bool :=
  forallb (fun a => match a with
                    | Transact _ c => negb (is_withdraw c)
                    | ForcePay _ => true
                    end) acts.

(** Transactions alone, as actions. *)
Definition transactions (txs : list (Env * Call)) : list Action :=
  map (fun tx => Transact (fst tx) (snd tx)) txs.

(** Alice's and carol's purchases from bob, five wei forced in, and then
    alice confirming delivery. *)
Definition topped_up_acts : list Action :=
  [Transact (by_ alice 1000) (CreateEscrow 100 bob "book" 7);
   Transact (by_ carol 5000) (CreateEscrow 40 bob "lamp" 1);
   ForcePay 5;
   Transact (by_ alice 6000) (ConfirmDelivery 1)].

Definition topped_up : Contract := history topped_up_acts fresh.

(** * Proofs *)

(** ** Running the monad in proofs *)

#[local] Arguments N.add : simpl never.
#[local] Arguments N.mul : simpl never.
#[local] Arguments N.sub : simpl never.
#[local] Arguments N.div : simpl never.
#[local] Arguments N.pow : simpl never.
#[local] Arguments N.leb : simpl never.
#[local] Arguments N.ltb : simpl never.
#[local] Arguments N.eqb : simpl never.
#[local] Arguments uint256_max : simpl never.
#[local] Arguments _completeEscrow : simpl never.

Ltac unfold_call :=
  unfold createEscrow, confirmDelivery, requestRefund, raiseDispute,
    resolveDispute, getEscrow, updatePlatformFee, updatePlatformWallet,
    emergencyWithdraw, isDeliveryOverdue, _completeEscrow,
    onlyOwner, onlyBuyer, onlySeller, onlyParticipant, escrowExists,
    escrowPending, credit, transfer, emit, update, load,
    checked_add, checked_mul, checked_sub, require,
    bind, ret, fail, gets, modify in *.

Ltac unfold_entry :=
  unfold createEscrow, confirmDelivery, requestRefund, raiseDispute,
    resolveDispute, getEscrow, updatePlatformFee, updatePlatformWallet,
    emergencyWithdraw, isDeliveryOverdue,
    onlyOwner, onlyBuyer, onlySeller, onlyParticipant, escrowExists,
    escrowPending, credit, transfer, emit, update, load,
    checked_add, checked_mul, checked_sub, require,
    bind, ret, fail, gets, modify in *.

(** ** Proof infrastructure *)

Lemma EscrowStatus_eqb_eq a b : EscrowStatus_eqb a b = true <-> a = b.
Proof. destruct a, b; cbn; split; congruence. Qed.

Lemma EscrowStatus_eqb_neq a b : EscrowStatus_eqb a b = false <-> a <> b.
Proof. destruct a, b; cbn; split; congruence. Qed.

Ltac to_prop :=
  repeat match goal with
  | H : (_ && _) = true |- _ => apply andb_true_iff in H; destruct H
  | H : (_ || _) = false |- _ => apply orb_false_iff in H; destruct H
  | H : (_ && _) = false |- _ => apply andb_false_iff in H; destruct H
  | H : (_ || _) = true |- _ => apply orb_true_iff in H; destruct H
  | H : negb _ = true |- _ => apply negb_true_iff in H
  | H : negb _ = false |- _ => apply negb_false_iff in H
  | H : (_ <? _) = true |- _ => apply N.ltb_lt in H
  | H : (_ <? _) = false |- _ => apply N.ltb_ge in H
  | H : (_ <=? _) = true |- _ => apply N.leb_le in H
  | H : (_ <=? _) = false |- _ => apply N.leb_gt in H
  | H : (_ =? _) = true |- _ => apply N.eqb_eq in H
  | H : (_ =? _) = false |- _ => apply N.eqb_neq in H
  | H : EscrowStatus_eqb _ _ = true |- _ => apply EscrowStatus_eqb_eq in H
  | H : EscrowStatus_eqb _ _ = false |- _ => apply EscrowStatus_eqb_neq in H
  end.

(** Decide the conditions a call tests, from facts in the context. *)
Ltac decide_test c :=
  let E := fresh "E" in
  destruct c eqn:E; to_prop;
  try discriminate; try congruence; try lia.

Ltac run_call :=
  unfold_call; cbn in *;
  repeat (match goal with
          | |- context [if ?c then _ else _] => decide_test c
          | H : context [if ?c then _ else _] |- _ => decide_test c
          end; cbn in *).

Lemma escrow_at_written id r (s : Contract) :
  escrow_at id (set_escrows (fun m => <[id := r]> m) s) = r.
Proof. unfold escrow_at; cbn. by rewrite lookup_insert_eq. Qed.

Lemma escrow_at_other id id' r (s : Contract) :
  id <> id' ->
  escrow_at id' (set_escrows (fun m => <[id := r]> m) s) = escrow_at id' s.
Proof. intros. unfold escrow_at; cbn. by rewrite lookup_insert_ne. Qed.

Lemma completeEscrow_inv e id s u s' :
  _completeEscrow e id s = Ok u s' ->
  s' = settled id s /\
  amount (escrow_at id s) * platformFee s <= uint256_max /\
  fee_of s (escrow_at id s) <= amount (escrow_at id s) /\
  amount (escrow_at id s) <= balance s /\
  (0 < fee_of s (escrow_at id s) -> receives e (platformWallet s) = true) /\
  receives e (seller (escrow_at id s)) = true.
Proof.
  unfold _completeEscrow, settled, settlement, fee_of.
  intros H. run_call; rewrite ?escrow_at_written in *; cbn in *.
  all: injection H as H; subst s'.
  all: unfold settled, settlement, fee_of; cbn.
  all: unfold add_event, add_sent, set_balance, set_escrows; cbn.
  all: set (fee := (amount (escrow_at id s) * platformFee s) `div` 10000) in *.
  all: clearbody fee.
  all: repeat split; try assumption; try lia; try done.
  all: f_equal; solve [lia | by rewrite <- ?app_assoc].
Qed.

Lemma completeEscrow_ok e id s :
  amount (escrow_at id s) * platformFee s <= uint256_max ->
  fee_of s (escrow_at id s) <= amount (escrow_at id s) ->
  amount (escrow_at id s) <= balance s ->
  (0 < fee_of s (escrow_at id s) -> receives e (platformWallet s) = true) ->
  receives e (seller (escrow_at id s)) = true ->
  _completeEscrow e id s = Ok tt (settled id s).
Proof.
  unfold settled, settlement, fee_of. intros Hmul Hfee Hbal Hw Hs.
  unfold_call; cbn. rewrite !escrow_at_written; cbn.
  apply N.leb_le in Hmul, Hfee. rewrite Hmul, Hfee, Hs.
  set (fee := (amount (escrow_at id s) * platformFee s) `div` 10000) in *.
  clearbody fee. apply N.leb_le in Hfee.
  destruct (N.ltb_spec 0 fee) as [Hpos|Hz]; cbn.
  - rewrite (Hw Hpos).
    replace (fee <=? balance s) with true by (symmetry; apply N.leb_le; lia).
    cbn.
    replace (amount (escrow_at id s) - fee <=? balance s - fee) with true
      by (symmetry; apply N.leb_le; lia).
    cbn. unfold add_event, add_sent, set_balance, set_escrows; cbn.
    do 2 f_equal; [lia | by rewrite <- app_assoc].
  - replace (amount (escrow_at id s) - fee <=? balance s) with true
      by (symmetry; apply N.leb_le; lia).
    cbn. unfold add_event, add_sent, set_balance, set_escrows; cbn.
    do 2 f_equal; lia.
Qed.

(** Settlement never fails with a reason string: it panics on overflow
    and otherwise fails only on a payment that does not go through. *)
Lemma completeEscrow_err e id s f :
  _completeEscrow e id s = Err f ->
  (f = Panic /\
   (uint256_max < amount (escrow_at id s) * platformFee s \/
    amount (escrow_at id s) < fee_of s (escrow_at id s))) \/
  f = TransferFailed.
Proof.
  intros H. unfold fee_of. unfold_call; cbn in *.
  rewrite !escrow_at_written in H; cbn in H.
  repeat (match type of H with
          | context [if ?c then _ else _] => destruct c eqn:?
          end; cbn in H); inversion H; to_prop; auto.
Qed.

Lemma completeEscrow_unpaid e id s :
  amount (escrow_at id s) * platformFee s <= uint256_max ->
  fee_of s (escrow_at id s) <= amount (escrow_at id s) ->
  balance s < amount (escrow_at id s) \/
  receives e (seller (escrow_at id s)) = false \/
  (0 < fee_of s (escrow_at id s) /\ receives e (platformWallet s) = false) ->
  _completeEscrow e id s = Err TransferFailed.
Proof.
  intros Hmul Hfee Hno.
  destruct (_completeEscrow e id s) as [u s'|f] eqn:H.
  - apply completeEscrow_inv in H.
    destruct H as (_ & _ & _ & Hbal & Hw & Hs).
    destruct Hno as [?|[?|[Hpos ?]]]; [lia | congruence |].
    specialize (Hw Hpos). congruence.
  - apply completeEscrow_err in H. destruct H as [[_ [?|?]] | ->]; [lia | lia | done].
Qed.

(** The frame of a settlement and of a refund. *)
Lemma escrow_at_settled id id' s :
  escrow_at id' (settled id s) =
  if decide (id = id') then set_status DELIVERED (escrow_at id s)
  else escrow_at id' s.
Proof.
  unfold settled, escrow_at at 1; cbn. rewrite lookup_insert.
  case_decide; done.
Qed.

Lemma escrow_at_refunded id id' s :
  escrow_at id' (refunded id s) =
  if decide (id = id') then set_status REFUNDED (escrow_at id s)
  else escrow_at id' s.
Proof.
  unfold refunded, escrow_at at 1; cbn. rewrite lookup_insert.
  case_decide; done.
Qed.

Lemma escrow_at_add_event id ev s : escrow_at id (add_event ev s) = escrow_at id s.
Proof. reflexivity. Qed.

Lemma escrow_at_add_sent id a v s : escrow_at id (add_sent a v s) = escrow_at id s.
Proof. reflexivity. Qed.

Lemma escrow_at_set_balance id b s : escrow_at id (set_balance b s) = escrow_at id s.
Proof. reflexivity. Qed.

Lemma escrow_at_set_nextEscrowId id n s :
  escrow_at id (set_nextEscrowId n s) = escrow_at id s.
Proof. reflexivity. Qed.

Lemma escrow_at_set_platformFee id n s :
  escrow_at id (set_platformFee n s) = escrow_at id s.
Proof. reflexivity. Qed.

Lemma escrow_at_set_platformWallet id a s :
  escrow_at id (set_platformWallet a s) = escrow_at id s.
Proof. reflexivity. Qed.

Ltac frame :=
  rewrite ?escrow_at_add_event, ?escrow_at_add_sent, ?escrow_at_set_balance,
    ?escrow_at_set_nextEscrowId, ?escrow_at_set_platformFee,
    ?escrow_at_set_platformWallet, ?escrow_at_written in *;
  cbn in *.

Ltac run_entry :=
  unfold_entry; cbn in *; frame;
  repeat (match goal with
          | |- context [if ?c then _ else _] => decide_test c
          | H : context [if ?c then _ else _] |- _ => decide_test c
          end; cbn in *; frame).

Ltac solve_fails := eexists; split; reflexivity.

Lemma requestRefund_inv e id s u s' :
  requestRefund e id s = Ok u s' ->
  s' = refunded id s /\
  id < nextEscrowId s /\
  status (escrow_at id s) = PENDING /\
  msg_sender e = buyer (escrow_at id s) /\
  deliveryDeadline (escrow_at id s) < block_timestamp e /\
  amount (escrow_at id s) <= balance s /\
  receives e (buyer (escrow_at id s)) = true.
Proof.
  intros H. run_entry. injection H as H; subst s'.
  repeat split; try assumption; try lia.
Qed.

Lemma requestRefund_ok e id s :
  id < nextEscrowId s ->
  status (escrow_at id s) = PENDING ->
  msg_sender e = buyer (escrow_at id s) ->
  deliveryDeadline (escrow_at id s) < block_timestamp e ->
  amount (escrow_at id s) <= balance s ->
  receives e (buyer (escrow_at id s)) = true ->
  requestRefund e id s = Ok tt (refunded id s).
Proof.
  intros Hid Hst Hb Ht Hbal Hr. run_entry. reflexivity.
Qed.

Example one_pending_record :
  escrows one_pending !! 1 =
  Some (mkEscrow alice bob 100 PENDING 1000 605800 "book" false false)
  /\ balance one_pending = 100 /\ nextEscrowId one_pending = 2.
Proof. vm_compute. auto. Qed.

Example swept_balance :
  balance swept = 0 /\ sent swept = [(carol, 100)] /\
  status (escrow_at 1 swept) = PENDING.
Proof. vm_compute. auto. Qed.

(** ** Guards: order of the checks *)

(** C10. In [confirmDelivery], [requestRefund] and [raiseDispute] the
    existence check and the PENDING check run before the role check:
    whoever the caller is, an unknown id is rejected as NotFound and an
    existing escrow that is not PENDING is rejected as InvalidState, never
    as Forbidden. *)
Theorem state_checks_precede_role_check (e : Env) (escrowId : N) (s : Contract) :
  (nextEscrowId s <= escrowId ->
     fails_as (confirmDelivery e escrowId s) NotFound /\
     fails_as (requestRefund e escrowId s) NotFound /\
     fails_as (raiseDispute e escrowId s) NotFound) /\
  (escrowId < nextEscrowId s ->
   status (escrow_at escrowId s) <> PENDING ->
     fails_as (confirmDelivery e escrowId s) InvalidState /\
     fails_as (requestRefund e escrowId s) InvalidState /\
     fails_as (raiseDispute e escrowId s) InvalidState).
Proof.
  split.
  - intros Hid. repeat split; run_entry; solve_fails.
  - intros Hid Hst. repeat split; run_entry; solve_fails.
Qed.

Lemma state_checks_precede_role_check_witness :
  (1 < nextEscrowId one_disputed /\
   status (escrow_at 1 one_disputed) <> PENDING /\
   fails_as (confirmDelivery (by_ mallory 3000) 1 one_disputed) InvalidState /\
   fails_as (requestRefund (by_ mallory 3000) 1 one_disputed) InvalidState /\
   fails_as (raiseDispute (by_ mallory 3000) 1 one_disputed) InvalidState) /\
  (nextEscrowId one_disputed <= 7 /\
   fails_as (confirmDelivery (by_ mallory 3000) 7 one_disputed) NotFound).
Proof.
  assert (H1 : 1 < nextEscrowId one_disputed) by (vm_compute; reflexivity).
  assert (H2 : status (escrow_at 1 one_disputed) <> PENDING)
    by (vm_compute; discriminate).
  assert (H3 : nextEscrowId one_disputed <= 7) by (vm_compute; discriminate).
  split.
  - split; [exact H1 | split; [exact H2 |]].
    exact (proj2 (state_checks_precede_role_check (by_ mallory 3000) 1 one_disputed)
             H1 H2).
  - split; [exact H3 |].
    exact (proj1 (proj1 (state_checks_precede_role_check (by_ mallory 3000) 7
                           one_disputed) H3)).
Defined.

(** ** Refunds *)

(** C7 (as the code has it).  On a PENDING escrow, [requestRefund] by
    anyone but the buyer is rejected as Forbidden; by the buyer it is
    rejected as TooEarly while the time is not after the deadline; after
    the deadline it goes through when the contract holds the amount and the
    buyer's account accepts the payment, marking the escrow REFUNDED and
    paying the buyer the full amount and nobody else; and it reverts when
    that payment cannot be made. *)
Theorem requestRefund_after_deadline (e : Env) (escrowId : N) (s : Contract) :
  escrowId < nextEscrowId s ->
  status (escrow_at escrowId s) = PENDING ->
  let r := escrow_at escrowId s in
  (msg_sender e <> buyer r -> fails_as (requestRefund e escrowId s) Forbidden) /\
  (msg_sender e = buyer r ->
   block_timestamp e <= deliveryDeadline r ->
     fails_as (requestRefund e escrowId s) TooEarly) /\
  (msg_sender e = buyer r ->
   deliveryDeadline r < block_timestamp e ->
   amount r <= balance s ->
   receives e (buyer r) = true ->
     exists s', requestRefund e escrowId s = Ok tt s' /\
       status (escrow_at escrowId s') = REFUNDED /\
       sent s' = sent s ++ [(buyer r, amount r)] /\
       balance s' = balance s - amount r /\
       events s' = events s ++ [EscrowRefunded escrowId (amount r)]) /\
  (msg_sender e = buyer r ->
   deliveryDeadline r < block_timestamp e ->
   balance s < amount r \/ receives e (buyer r) = false ->
     requestRefund e escrowId s = Err TransferFailed).
Proof.
  intros Hid Hst r. subst r. repeat split.
  - intros Hb. run_entry. solve_fails.
  - intros Hb Ht. run_entry. solve_fails.
  - intros Hb Ht Hbal Hr. exists (refunded escrowId s).
    split; [by apply requestRefund_ok|].
    rewrite escrow_at_refunded. case_decide; [|done]. by cbn.
  - intros Hb Ht Hno. destruct Hno; run_entry; reflexivity.
Qed.

Lemma requestRefund_after_deadline_witness :
  1 < nextEscrowId one_pending /\
  status (escrow_at 1 one_pending) = PENDING /\
  fails_as (requestRefund (by_ bob 700000) 1 one_pending) Forbidden /\
  fails_as (requestRefund (by_ alice 605800) 1 one_pending) TooEarly /\
  (exists s', requestRefund (by_ alice 605801) 1 one_pending = Ok tt s' /\
     status (escrow_at 1 s') = REFUNDED /\
     sent s' = [(alice, 100)] /\ balance s' = 0).
Proof.
  assert (H1 : 1 < nextEscrowId one_pending) by (vm_compute; reflexivity).
  assert (H2 : status (escrow_at 1 one_pending) = PENDING) by (vm_compute; reflexivity).
  split; [exact H1 | split; [exact H2 |]].
  split; [| split].
  - apply (proj1 (requestRefund_after_deadline (by_ bob 700000) 1 one_pending H1 H2)).
    vm_compute; discriminate.
  - apply (proj1 (proj2 (requestRefund_after_deadline (by_ alice 605800) 1
                           one_pending H1 H2))).
    + vm_compute; reflexivity.
    + vm_compute; discriminate.
  - destruct (proj1 (proj2 (proj2 (requestRefund_after_deadline (by_ alice 605801) 1
                                     one_pending H1 H2))))
      as (s' & Hrun & Hst & Hsent & Hbal & _).
    + vm_compute; reflexivity.
    + vm_compute; reflexivity.
    + vm_compute; discriminate.
    + vm_compute; reflexivity.
    + exists s'. repeat split; assumption.
Defined.

(** The refund is not unconditional: once the owner has swept the balance
    the buyer's refund of a PENDING escrow reverts after the deadline, on
    a chain where every account accepts payments. *)
Lemma requestRefund_reverts_after_sweep :
  reachable swept /\
  1 < nextEscrowId swept /\
  status (escrow_at 1 swept) = PENDING /\
  msg_sender (by_ alice 700000) = buyer (escrow_at 1 swept) /\
  deliveryDeadline (escrow_at 1 swept) < block_timestamp (by_ alice 700000) /\
  requestRefund (by_ alice 700000) 1 swept = Err TransferFailed /\
  status (escrow_at 1 (commit (requestRefund (by_ alice 700000) 1) swept)) = PENDING.
Proof.
  split; [do 2 apply reach_commit; apply reach_deploy |].
  vm_compute. repeat split; reflexivity.
Qed.

(** ** Dispute resolution *)

Lemma resolveDispute_inv e id b s u s' :
  resolveDispute e id b s = Ok u s' ->
  msg_sender e = owner s /\ id < nextEscrowId s /\
  status (escrow_at id s) = DISPUTED /\
  amount (escrow_at id s) <= balance s /\
  (if b then s' = refunded id s
   else s' = settled id s /\
        fee_of s (escrow_at id s) <= amount (escrow_at id s)).
Proof.
  intros H. destruct b.
  - run_entry. injection H as H; subst s'. repeat split; try assumption; lia.
  - unfold resolveDispute in H. unfold_entry. cbn in H.
    repeat (match type of H with
            | context [if ?c then _ else _] => decide_test c
            end; cbn in H).
    apply completeEscrow_inv in H. intuition.
Qed.

(** C8. [resolveDispute] goes through only for the owner, on an existing
    escrow whose status is DISPUTED: any other caller is rejected as
    Forbidden, and the owner is rejected with InvalidState on an escrow that
    is PENDING or DELIVERED (or REFUNDED).  When it goes through with
    [refundToBuyer] the escrow becomes REFUNDED and the buyer is paid the
    full amount; otherwise the escrow becomes DELIVERED and the fee split is
    paid out.  Both outcomes do occur when the payments can be made. *)
Theorem resolveDispute_owner_only (e : Env) (escrowId : N) (s : Contract) :
  let r := escrow_at escrowId s in
  (forall b u s', resolveDispute e escrowId b s = Ok u s' ->
     msg_sender e = owner s /\ escrowId < nextEscrowId s /\ status r = DISPUTED) /\
  (forall b, msg_sender e <> owner s ->
     fails_as (resolveDispute e escrowId b s) Forbidden) /\
  (forall b, msg_sender e = owner s -> escrowId < nextEscrowId s ->
     status r <> DISPUTED ->
     fails_as (resolveDispute e escrowId b s) InvalidState) /\
  (forall u s', resolveDispute e escrowId true s = Ok u s' ->
     status (escrow_at escrowId s') = REFUNDED /\
     sent s' = sent s ++ [(buyer r, amount r)] /\
     balance s' + amount r = balance s) /\
  (forall u s', resolveDispute e escrowId false s = Ok u s' ->
     status (escrow_at escrowId s') = DELIVERED /\
     sent s' = sent s ++ settlement s r /\
     fee_of s r + (amount r - fee_of s r) = amount r /\
     balance s' + amount r = balance s) /\
  (msg_sender e = owner s -> escrowId < nextEscrowId s -> status r = DISPUTED ->
   amount r <= balance s -> receives e (buyer r) = true ->
     exists s', resolveDispute e escrowId true s = Ok tt s') /\
  (msg_sender e = owner s -> escrowId < nextEscrowId s -> status r = DISPUTED ->
   amount r <= balance s -> platformFee s <= 10000 ->
   amount r * platformFee s <= uint256_max ->
   receives e (platformWallet s) = true -> receives e (seller r) = true ->
     exists s', resolveDispute e escrowId false s = Ok tt s').
Proof.
  intros r; subst r. repeat split.
  - apply resolveDispute_inv in H; tauto.
  - apply resolveDispute_inv in H; tauto.
  - apply resolveDispute_inv in H; tauto.
  - intros Hne. run_entry; solve_fails.
  - intros Ho Hid Hst. run_entry; solve_fails.
  - apply resolveDispute_inv in H. destruct H as (_ & _ & _ & _ & ->).
    rewrite escrow_at_refunded. case_decide; done.
  - apply resolveDispute_inv in H. destruct H as (_ & _ & _ & _ & ->). done.
  - apply resolveDispute_inv in H. destruct H as (_ & _ & _ & Hb & ->).
    cbn. lia.
  - apply resolveDispute_inv in H. destruct H as (_ & _ & _ & _ & -> & _).
    rewrite escrow_at_settled. case_decide; done.
  - apply resolveDispute_inv in H. destruct H as (_ & _ & _ & _ & -> & _). done.
  - apply resolveDispute_inv in H. destruct H as (_ & _ & _ & _ & _ & Hfee). lia.
  - apply resolveDispute_inv in H. destruct H as (_ & _ & _ & Hb & -> & _).
    cbn. lia.
  - intros Ho Hid Hst Hbal Hr. exists (refunded escrowId s). run_entry. reflexivity.
  - intros Ho Hid Hst Hbal Hfee Hmul Hw Hs. exists (settled escrowId s).
    assert (Hle : fee_of s (escrow_at escrowId s) <= amount (escrow_at escrowId s)).
    { unfold fee_of. apply N.Div0.div_le_upper_bound. nia. }
    unfold resolveDispute. unfold_entry. cbn.
    repeat (match goal with
            | |- context [if ?c then _ else _] => decide_test c
            end; cbn).
    by apply completeEscrow_ok.
Qed.

Lemma resolveDispute_owner_only_witness :
  fails_as (resolveDispute (by_ alice 3000) 1 true one_disputed) Forbidden /\
  fails_as (resolveDispute (by_ carol 3000) 1 false one_pending) InvalidState /\
  (exists s', resolveDispute (by_ carol 3000) 1 true one_disputed = Ok tt s' /\
     status (escrow_at 1 s') = REFUNDED /\ sent s' = [(alice, 100)]) /\
  (exists s', resolveDispute (by_ carol 3000) 1 false one_disputed = Ok tt s' /\
     status (escrow_at 1 s') = DELIVERED /\
     sent s' = [(treasury, 2); (bob, 98)]).
Proof.
  pose proof (resolveDispute_owner_only (by_ alice 3000) 1 one_disputed) as Ha.
  pose proof (resolveDispute_owner_only (by_ carol 3000) 1 one_pending) as Hp.
  pose proof (resolveDispute_owner_only (by_ carol 3000) 1 one_disputed) as Hd.
  cbv zeta in Ha, Hp, Hd.
  destruct Ha as (_ & Ha & _).
  destruct Hp as (_ & _ & Hp & _).
  destruct Hd as (_ & _ & _ & Ht & Hf & Hokt & Hokf).
  split; [apply Ha; vm_compute; discriminate |].
  split; [apply Hp; vm_compute; (reflexivity || discriminate) |].
  split.
  - destruct Hokt as (s' & Hs'); try (vm_compute; (reflexivity || discriminate)).
    exists s'. destruct (Ht _ _ Hs') as (H1 & H2 & _).
    split; [exact Hs' | split; [exact H1 | exact H2]].
  - destruct Hokf as (s' & Hs'); try (vm_compute; (reflexivity || discriminate)).
    exists s'. destruct (Hf _ _ Hs') as (H1 & H2 & _).
    split; [exact Hs' | split; [exact H1 | exact H2]].
Defined.

(** ** Settlement *)

Lemma escrow_at_confirmed e id id' s :
  escrow_at id' (confirmed e id s) =
  if decide (id = id')
  then (if msg_sender e =? buyer (escrow_at id s)
        then set_buyerConfirmed true (escrow_at id s)
        else set_sellerConfirmed true (escrow_at id s))
  else escrow_at id' s.
Proof.
  unfold confirmed, escrow_at at 1; cbn. rewrite lookup_insert.
  case_decide; done.
Qed.

Lemma settlement_confirmed e id s :
  settlement (confirmed e id s) (escrow_at id (confirmed e id s)) =
  settlement s (escrow_at id s).
Proof.
  rewrite escrow_at_confirmed. case_decide; [|done].
  unfold settlement, fee_of; cbn. by destruct (msg_sender e =? _).
Qed.

Lemma amount_confirmed e id s :
  amount (escrow_at id (confirmed e id s)) = amount (escrow_at id s).
Proof.
  rewrite escrow_at_confirmed. case_decide; [|done].
  by destruct (msg_sender e =? _).
Qed.

Lemma confirmDelivery_eq e id s :
  id < nextEscrowId s ->
  status (escrow_at id s) = PENDING ->
  msg_sender e = buyer (escrow_at id s) \/ msg_sender e = seller (escrow_at id s) ->
  confirmDelivery e id s =
  if buyerConfirmed (escrow_at id (confirmed e id s))
  then _completeEscrow e id (confirmed e id s)
  else Ok tt (confirmed e id s).
Proof.
  intros Hid Hst Hp. rewrite escrow_at_confirmed.
  case_decide; [|done]. unfold confirmed.
  unfold confirmDelivery. unfold_entry. cbn.
  destruct Hp as [Hp|Hp];
    repeat (match goal with
            | |- context [if ?c then _ else _] => decide_test c
            end; cbn; frame);
    try reflexivity.
Qed.

Lemma confirmDelivery_inv e id s u s' :
  confirmDelivery e id s = Ok u s' ->
  id < nextEscrowId s /\
  status (escrow_at id s) = PENDING /\
  (msg_sender e = buyer (escrow_at id s) \/ msg_sender e = seller (escrow_at id s)).
Proof.
  intros H. unfold confirmDelivery in H. unfold_entry. cbn in H.
  repeat (match type of H with
          | context [if ?c then _ else _] => decide_test c
          end; cbn in H; frame).
  all: auto.
Qed.

Lemma fee_of_confirmed e id s :
  fee_of (confirmed e id s) (escrow_at id (confirmed e id s)) =
  fee_of s (escrow_at id s).
Proof. unfold fee_of. by rewrite amount_confirmed. Qed.

(** C3. Whenever an escrow completes, through the buyer's confirmation or
    through the owner resolving a dispute for the seller, the fee is
    [amount * platformFee / 10000] rounded down, the seller gets the rest,
    the two add up to the amount, and the payment to the platform wallet
    is made exactly when the fee is not zero. *)
Theorem settlement_split (e : Env) (escrowId : N) (s : Contract) (u : unit)
    (s' : Contract) :
  confirmDelivery e escrowId s = Ok u s' \/
  resolveDispute e escrowId false s = Ok u s' ->
  status (escrow_at escrowId s') = DELIVERED ->
  let r := escrow_at escrowId s in
  let feeAmount := amount r * platformFee s / 10000 in
  let sellerAmount := amount r - feeAmount in
  feeAmount + sellerAmount = amount r /\
  sent s' = sent s
            ++ (if 0 <? feeAmount then [(platformWallet s, feeAmount)] else [])
            ++ [(seller r, sellerAmount)] /\
  (exists evs, events s' =
     events s ++ evs ++ [EscrowCompleted escrowId sellerAmount feeAmount]) /\
  balance s' + amount r = balance s.
Proof.
  intros [H|H] Hst r feeAmount sellerAmount.
  - destruct (confirmDelivery_inv _ _ _ _ _ H) as (Hid & Hp & Hwho).
    rewrite confirmDelivery_eq in H by assumption.
    destruct (buyerConfirmed (escrow_at escrowId (confirmed e escrowId s))) eqn:Hbc.
    + apply completeEscrow_inv in H.
      destruct H as (-> & _ & Hfee & Hbal & _).
      rewrite fee_of_confirmed, amount_confirmed in *.
      fold r in Hfee, Hbal. change (fee_of s r) with feeAmount in Hfee.
      repeat split.
      * subst sellerAmount. clear - Hfee. clearbody feeAmount r. lia.
      * cbn. rewrite settlement_confirmed. reflexivity.
      * exists [DeliveryConfirmed escrowId (msg_sender e)]. cbn.
        rewrite fee_of_confirmed, amount_confirmed. by rewrite <- app_assoc.
      * cbn in *. rewrite amount_confirmed. fold r. clear - Hbal. clearbody r. lia.
    + injection H as _ <-. rewrite escrow_at_confirmed in Hst.
      case_decide; [|done].
      destruct (msg_sender e =? _); cbn in Hst; congruence.
  - apply resolveDispute_inv in H. destruct H as (_ & _ & _ & Hbal & -> & Hfee).
    fold r in Hbal, Hfee. change (fee_of s r) with feeAmount in Hfee.
    repeat split.
    + subst sellerAmount. clear - Hfee. clearbody feeAmount r. lia.
    + exists []. reflexivity.
    + cbn. fold r. clear - Hbal. clearbody r. lia.
Qed.

Lemma settlement_split_witness :
  confirmDelivery (by_ alice 2000) 1 one_pending = Ok tt one_delivered /\
  status (escrow_at 1 one_delivered) = DELIVERED /\
  100 * 250 / 10000 + (100 - 100 * 250 / 10000) = 100 /\
  sent one_delivered = [(treasury, 2); (bob, 98)] /\
  balance one_delivered + 100 = 100.
Proof.
  assert (H1 : confirmDelivery (by_ alice 2000) 1 one_pending = Ok tt one_delivered)
    by (vm_compute; reflexivity).
  assert (H2 : status (escrow_at 1 one_delivered) = DELIVERED)
    by (vm_compute; reflexivity).
  destruct (settlement_split _ _ _ _ _ (or_introl H1) H2) as (Hsum & Hsent & _ & Hbal).
  split; [exact H1 | split; [exact H2 |]].
  split; [exact Hsum | split; [exact Hsent | exact Hbal]].
Defined.

(** ** Creation *)

Lemma createEscrow_inv e v sl descr d s id s' :
  createEscrow e v sl descr d s = Ok id s' ->
  0 < v /\ sl <> 0 /\ sl <> msg_sender e /\ 1 <= d <= 365 /\
  nextEscrowId s + 1 <= uint256_max /\
  block_timestamp e + d * days <= uint256_max /\
  id = nextEscrowId s /\ s' = opened e v sl descr d s.
Proof.
  intros H. run_entry. injection H as <- <-.
  repeat split; try assumption; try lia.
Qed.

Lemma createEscrow_ok e v sl descr d s :
  0 < v -> sl <> 0 -> sl <> msg_sender e -> 1 <= d <= 365 ->
  nextEscrowId s + 1 <= uint256_max ->
  block_timestamp e + d * days <= uint256_max ->
  createEscrow e v sl descr d s = Ok (nextEscrowId s) (opened e v sl descr d s).
Proof.
  intros Hv Hs Hsb [Hd1 Hd2] Hn Ht. run_entry. reflexivity.
Qed.

(** C6. [createEscrow] is rejected exactly when no funds are attached, or
    the seller is the null account, or the seller is the caller, or
    [deliveryDays] is outside 1..365 (the id counter and the clock being
    within [uint256] range); a rejection is an InvalidInput.  When it goes
    through it hands out the next id, ids starting at 1, and stores a
    PENDING record with both flags clear, the attached funds as amount and
    a deadline of [deliveryDays * 86400] seconds after the block time; the
    funds are held by the contract. *)
Theorem createEscrow_spec (e : Env) (msg_value : N) (seller : address)
    (itemDescription : string) (deliveryDays : N) (s : Contract) :
  nextEscrowId s < uint256_max ->
  block_timestamp e + 365 * days <= uint256_max ->
  let call := createEscrow e msg_value seller itemDescription deliveryDays s in
  (is_err call = true <->
     msg_value <= 0 \/ seller = 0 \/ seller = msg_sender e \/
     deliveryDays < 1 \/ 365 < deliveryDays) /\
  (is_err call = true -> fails_as call InvalidInput) /\
  (forall id s', call = Ok id s' ->
     id = nextEscrowId s /\
     nextEscrowId s' = id + 1 /\
     escrows s' !! id =
       Some (mkEscrow (msg_sender e) seller msg_value PENDING (block_timestamp e)
                      (block_timestamp e + deliveryDays * 86400)
                      itemDescription false false) /\
     balance s' = balance s + msg_value) /\
  (forall deployer wallet funds,
     nextEscrowId (constructor_ deployer wallet funds) = 1).
Proof.
  intros Hn Ht call. subst call. repeat split.
  - intros Herr.
    destruct (N.eq_dec msg_value 0) as [?|Hv]; [left; lia|].
    destruct (N.eq_dec seller 0) as [?|Hs]; [auto|].
    destruct (N.eq_dec seller (msg_sender e)) as [?|Hsb]; [auto|].
    destruct (N.lt_ge_cases deliveryDays 1) as [?|Hd1]; [auto|].
    destruct (N.lt_ge_cases 365 deliveryDays) as [?|Hd2]; [auto 6|].
    rewrite createEscrow_ok in Herr; [discriminate | try lia ..]; try assumption.
    unfold days in *. nia.
  - intros Hbad.
    destruct (createEscrow e msg_value seller itemDescription deliveryDays s)
      as [id s'|f] eqn:Hrun; [|reflexivity].
    apply createEscrow_inv in Hrun. lia.
  - intros Herr.
    run_entry; try discriminate; try solve_fails; exfalso; unfold days in *; lia.
  - apply createEscrow_inv in H. tauto.
  - apply createEscrow_inv in H. destruct H as (_&_&_&_&_&_& -> & ->). reflexivity.
  - apply createEscrow_inv in H. destruct H as (_&_&_&_&_&_& -> & ->).
    cbn. by rewrite lookup_insert_eq.
  - apply createEscrow_inv in H. destruct H as (_&_&_&_&_&_& -> & ->). reflexivity.
Qed.

Lemma createEscrow_spec_witness :
  nextEscrowId fresh < uint256_max /\
  block_timestamp (by_ alice 1000) + 365 * days <= uint256_max /\
  createEscrow (by_ alice 1000) 100 bob "book" 7 fresh = Ok 1 one_pending /\
  escrows one_pending !! 1 =
    Some (mkEscrow alice bob 100 PENDING 1000 (1000 + 7 * 86400) "book" false false) /\
  fails_as (createEscrow (by_ alice 1000) 100 bob "book" 366 fresh) InvalidInput.
Proof.
  assert (H1 : nextEscrowId fresh < uint256_max) by (vm_compute; reflexivity).
  assert (H2 : block_timestamp (by_ alice 1000) + 365 * days <= uint256_max)
    by (vm_compute; discriminate).
  assert (H3 : createEscrow (by_ alice 1000) 100 bob "book" 7 fresh = Ok 1 one_pending)
    by (vm_compute; reflexivity).
  split; [exact H1 | split; [exact H2 | split; [exact H3 |]]].
  split.
  - destruct (createEscrow_spec (by_ alice 1000) 100 bob "book" 7 fresh H1 H2)
      as (_ & _ & Hok & _).
    destruct (Hok _ _ H3) as (_ & _ & Hrec & _). exact Hrec.
  - destruct (createEscrow_spec (by_ alice 1000) 100 bob "book" 366 fresh H1 H2)
      as (Hiff & Hkind & _).
    apply Hkind, Hiff. right; right; right; right. vm_compute; reflexivity.
Defined.

(** ** Every call is a transition of the state machine *)

Lemma exec_transition e c s u s' :
  exec e c s = Ok u s' -> transition s (is_withdraw c) s'.
Proof.
  destruct c; cbn [exec is_withdraw]; intros H.
  - unfold bind in H.
    destruct (createEscrow e msg_value seller0 itemDescription0 deliveryDays s)
      as [id s1|] eqn:Hc; [|discriminate].
    injection H as _ <-. apply createEscrow_inv in Hc.
    destruct Hc as (? & ? & ? & _ & _ & _ & _ & ->). by constructor.
  - destruct (confirmDelivery_inv _ _ _ _ _ H) as (Hid & Hst & Hwho).
    rewrite confirmDelivery_eq in H by assumption.
    destruct (buyerConfirmed (escrow_at escrowId (confirmed e escrowId s))) eqn:Hbc.
    + apply completeEscrow_inv in H. destruct H as (-> & _ & Hfee & Hbal & _).
      rewrite fee_of_confirmed, amount_confirmed in *.
      by constructor.
    + injection H as _ <-. by constructor.
  - apply requestRefund_inv in H. destruct H as (-> & ? & ? & _ & _ & ? & _).
    constructor; auto.
  - run_entry; injection H as _ <-; by apply t_dispute.
  - apply resolveDispute_inv in H. destruct H as (_ & ? & ? & ? & H).
    destruct refundToBuyer.
    + subst s'. constructor; auto.
    + destruct H as [-> ?]. by apply t_resolve.
  - run_entry; injection H as _ <-; by constructor.
  - run_entry; injection H as _ <-; by constructor.
  - run_entry; injection H as _ <-; apply t_withdraw.
Qed.

(** ** Invariants of reachable states *)

Lemma payouts_app id evs evs' :
  payouts id (evs ++ evs') = (payouts id evs + payouts id evs')%nat.
Proof. induction evs as [|ev evs IH]; cbn; [done|]. rewrite IH. lia. Qed.

Lemma escrow_at_unset s id :
  wf s -> nextEscrowId s <= id -> escrow_at id s = zero_escrow.
Proof. intros Hwf Hid. unfold escrow_at. by rewrite (wf_unset s Hwf id Hid). Qed.

Lemma escrow_at_opened e v sl descr d s id :
  escrow_at id (opened e v sl descr d s) =
  if decide (nextEscrowId s = id)
  then mkEscrow (msg_sender e) sl v PENDING (block_timestamp e)
                (block_timestamp e + d * days) descr false false
  else escrow_at id s.
Proof.
  unfold opened, escrow_at at 1; cbn. rewrite lookup_insert. by case_decide.
Qed.

Lemma escrow_at_disputed e id id' s :
  escrow_at id' (disputed e id s) =
  if decide (id = id') then set_status DISPUTED (escrow_at id s)
  else escrow_at id' s.
Proof.
  unfold disputed, escrow_at at 1; cbn. rewrite lookup_insert. by case_decide.
Qed.

Lemma wf_constructor deployer wallet funds : wf (constructor_ deployer wallet funds).
Proof.
  split; cbn.
  - lia.
  - intros id _. apply lookup_empty.
  - intros id [H1 H2]. cbn in H2. lia.
  - lia.
  - intros id. unfold escrow_at; cbn. by rewrite lookup_empty.
Qed.

Ltac records :=
  rewrite ?escrow_at_opened, ?escrow_at_settled, ?escrow_at_refunded,
    ?escrow_at_confirmed, ?escrow_at_disputed in *;
  repeat case_decide; subst; cbn in *.

Lemma wf_transition s b s' : wf s -> transition s b s' -> wf s'.
Proof.
  intros [Hn Hu Hr Hf Hp] Ht.
  destruct Ht.
  all: split;
    [ cbn; lia
    | cbn; intros id' Hid'; rewrite ?lookup_insert_ne by lia; apply Hu; lia
    | intros id' [Hc1 Hc2]; cbn in Hc2;
      assert (Hold : created s id' \/ id' = nextEscrowId s)
        by (unfold created; lia);
      destruct Hold as [Hold|Hold]; [specialize (Hr id' Hold)|]
    | cbn; lia
    | intros id'; specialize (Hp id'); cbn; rewrite ?payouts_app; cbn ].
  all: records.
  all: try (rewrite ?Nat.add_0_r; assumption).
  all: try lia.
  all: try tauto.
  all: repeat match goal with
       | H : _ \/ _ |- _ => destruct H
       | |- context [if (?a =? ?b) then _ else _] =>
           destruct (N.eqb_spec a b); cbn in *
       | H : context [if (?a =? ?b) then _ else _] |- _ =>
           destruct (N.eqb_spec a b); cbn in *
       end.
  all: repeat match goal with
       | H : status ?r = _, H' : context [status ?r] |- _ => rewrite H in H'
       | H : status ?r = _ |- context [status ?r] => rewrite H
       end; cbn in *.
  all: try (unfold escrow_at in Hp; rewrite Hu in Hp by lia; cbn in Hp).
  all: try lia; try congruence.
  all: try (intuition (try congruence; try lia); fail).
Qed.

Lemma commit_ok {A} (m : M A) s a s' : m s = Ok a s' -> commit m s = s'.
Proof. unfold commit. by intros ->. Qed.

Lemma commit_err {A} (m : M A) s : is_err (m s) = true -> commit m s = s.
Proof. unfold commit. by destruct (m s). Qed.

Lemma commit_cases e c s :
  commit (exec e c) s = s \/ transition s (is_withdraw c) (commit (exec e c) s).
Proof.
  unfold commit. destruct (exec e c s) as [u s'|f] eqn:H; [|by left].
  right. by apply exec_transition in H.
Qed.

Lemma reachable_wf s : reachable s -> wf s.
Proof.
  induction 1 as [d w f|s e c Hs IH]; [apply wf_constructor|].
  destruct (commit_cases e c s) as [->|Ht]; [done|].
  exact (wf_transition s _ _ IH Ht).
Qed.

Lemma reachable_run txs s : reachable s -> reachable (run txs s).
Proof.
  revert s. induction txs as [|[e c] txs IH]; intros s Hs; cbn; [done|].
  apply IH. by constructor.
Qed.

(** ** Status changes *)

Lemma may_become_trans a b c : may_become a b -> may_become b c -> may_become a c.
Proof.
  unfold may_become. destruct a, b, c; cbn; intuition congruence.
Qed.

Lemma transition_status s b s' id :
  wf s -> transition s b s' ->
  may_become (status (escrow_at id s)) (status (escrow_at id s')).
Proof.
  intros Hwf Ht. unfold may_become. destruct Ht; records.
  all: try (left; reflexivity).
  all: try (rewrite escrow_at_unset by (assumption || lia); by left).
  all: repeat match goal with
       | H : _ \/ _ |- _ => destruct H
       | |- context [if (?a =? ?b) then _ else _] =>
           destruct (N.eqb_spec a b); cbn in *
       end.
  all: repeat match goal with
       | H : status ?r = _ |- context [status ?r] => rewrite H
       end; cbn; auto.
Qed.

Lemma commit_status e c s id :
  wf s ->
  may_become (status (escrow_at id s)) (status (escrow_at id (commit (exec e c) s))).
Proof.
  intros Hwf. destruct (commit_cases e c s) as [->|Ht]; [by left|].
  exact (transition_status s _ _ id Hwf Ht).
Qed.

Lemma run_status txs s id :
  reachable s ->
  may_become (status (escrow_at id s)) (status (escrow_at id (run txs s))).
Proof.
  revert s. induction txs as [|[e c] txs IH]; intros s Hs; cbn; [by left|].
  eapply may_become_trans; [apply commit_status, reachable_wf, Hs|].
  apply IH. by constructor.
Qed.

(** C2. From any reachable state and along any sequence of transactions,
    the status of every record either stays as it is or changes along
    PENDING -> DELIVERED, REFUNDED, DISPUTED or DISPUTED -> DELIVERED,
    REFUNDED.  The calls that would do otherwise are rejected: the three
    calls that need PENDING on a record that is not PENDING, and
    [resolveDispute] on a record that is not DISPUTED; and a rejected call
    leaves the whole state, so every record, as it was. *)
Theorem status_changes_allowed (s : Contract) :
  reachable s ->
  (forall txs id,
     let a := status (escrow_at id s) in
     let b := status (escrow_at id (run txs s)) in
     a = b \/ allowed a b = true) /\
  (forall e id, status (escrow_at id s) <> PENDING ->
     is_err (confirmDelivery e id s) = true /\
     is_err (requestRefund e id s) = true /\
     is_err (raiseDispute e id s) = true) /\
  (forall e id b, status (escrow_at id s) <> DISPUTED ->
     is_err (resolveDispute e id b s) = true) /\
  (forall e c, is_err (exec e c s) = true -> commit (exec e c) s = s).
Proof.
  intros Hs. repeat split.
  - intros txs id. apply (run_status txs s id Hs).
  - run_entry; reflexivity.
  - run_entry; reflexivity.
  - run_entry; reflexivity.
  - intros e id b Hst.
    destruct (resolveDispute e id b s) as [u s'|f] eqn:H; [|reflexivity].
    apply resolveDispute_inv in H. tauto.
  - intros e c. apply commit_err.
Qed.

Lemma status_changes_allowed_witness :
  reachable one_pending /\
  status (escrow_at 1 one_pending) = PENDING /\
  status (escrow_at 1 (run [(by_ bob 2000, RaiseDispute 1);
                            (by_ alice 2500, ConfirmDelivery 1);
                            (by_ carol 3000, ResolveDispute 1 true);
                            (by_ carol 3500, ResolveDispute 1 false)]
                           one_pending)) = REFUNDED /\
  allowed PENDING REFUNDED = true /\
  is_err (resolveDispute (by_ carol 3000) 1 true one_pending) = true.
Proof.
  assert (Hr : reachable one_pending) by (apply reachable_run, reach_deploy).
  destruct (status_changes_allowed one_pending Hr) as (Hrun & _ & Hres & _).
  split; [exact Hr|].
  split; [vm_compute; reflexivity|].
  split; [vm_compute; reflexivity|].
  split.
  - destruct (Hrun [(by_ bob 2000, RaiseDispute 1);
                    (by_ alice 2500, ConfirmDelivery 1);
                    (by_ carol 3000, ResolveDispute 1 true);
                    (by_ carol 3500, ResolveDispute 1 false)] 1) as [Heq|Hal].
    + vm_compute in Heq. discriminate Heq.
    + exact Hal.
  - apply Hres. vm_compute. discriminate.
Defined.

(** ** Confirmation *)

(** C1 (as the code has it).  For a created escrow that is PENDING in a
    reachable state: the buyer's confirmation alone completes it at once
    (the status becomes DELIVERED and the settlement is paid) provided the
    settlement can be paid, that is the contract holds the amount, the
    fee product fits a [uint256], and the platform wallet and the seller
    accept their payments; the seller's confirmation alone sets
    [sellerConfirmed], leaves the status PENDING and pays nothing. *)
Theorem confirmDelivery_buyer_alone_releases (s : Contract) (e : Env) (escrowId : N) :
  reachable s ->
  created s escrowId ->
  status (escrow_at escrowId s) = PENDING ->
  let r := escrow_at escrowId s in
  (msg_sender e = buyer r ->
   amount r <= balance s ->
   amount r * platformFee s <= uint256_max ->
   receives e (platformWallet s) = true ->
   receives e (seller r) = true ->
     exists s', confirmDelivery e escrowId s = Ok tt s' /\
       status (escrow_at escrowId s') = DELIVERED /\
       buyerConfirmed (escrow_at escrowId s') = true /\
       sellerConfirmed (escrow_at escrowId s') = sellerConfirmed r /\
       sent s' = sent s ++ settlement s r /\
       balance s' = balance s - amount r) /\
  (msg_sender e = seller r ->
     exists s', confirmDelivery e escrowId s = Ok tt s' /\
       sellerConfirmed (escrow_at escrowId s') = true /\
       buyerConfirmed (escrow_at escrowId s') = false /\
       status (escrow_at escrowId s') = PENDING /\
       sent s' = sent s /\
       balance s' = balance s /\
       events s' = events s ++ [DeliveryConfirmed escrowId (msg_sender e)]) /\
  (msg_sender e = buyer r ->
   amount r * platformFee s <= uint256_max ->
   balance s < amount r \/ receives e (seller r) = false \/
   (0 < fee_of s r /\ receives e (platformWallet s) = false) ->
     confirmDelivery e escrowId s = Err TransferFailed).
Proof.
  intros Hs Hc Hst r. subst r.
  pose proof (reachable_wf s Hs) as Hwf.
  destruct (wf_rec s Hwf escrowId Hc) as (Hne & _ & _ & Hbc).
  specialize (Hbc Hst).
  assert (Hid : escrowId < nextEscrowId s) by (destruct Hc; assumption).
  assert (Hfee : fee_of s (escrow_at escrowId s) <= amount (escrow_at escrowId s)).
  { unfold fee_of. apply N.Div0.div_le_upper_bound.
    pose proof (wf_fee s Hwf). nia. }
  assert (Hbuy : msg_sender e = buyer (escrow_at escrowId s) ->
                 escrow_at escrowId (confirmed e escrowId s) =
                 set_buyerConfirmed true (escrow_at escrowId s)).
  { intros Hb. rewrite escrow_at_confirmed. case_decide; [|done].
    by replace (msg_sender e =? buyer (escrow_at escrowId s)) with true
      by (symmetry; by apply N.eqb_eq). }
  split; [|split].
  - intros Hb Hbal Hmul Hw Hsl. specialize (Hbuy Hb).
    exists (settled escrowId (confirmed e escrowId s)).
    rewrite confirmDelivery_eq by auto.
    split.
    + rewrite Hbuy. cbn.
      apply completeEscrow_ok; rewrite ?fee_of_confirmed, ?Hbuy; cbn;
        try assumption; auto.
    + rewrite escrow_at_settled. case_decide; [|done]. rewrite Hbuy. cbn.
      repeat split.
      * by rewrite settlement_confirmed.
      * by rewrite amount_confirmed.
  - intros Hsl.
    assert (Heq : (msg_sender e =? buyer (escrow_at escrowId s)) = false)
      by (apply N.eqb_neq; congruence).
    assert (Hr' : escrow_at escrowId (confirmed e escrowId s) =
                  set_sellerConfirmed true (escrow_at escrowId s)).
    { rewrite escrow_at_confirmed. case_decide; [|done]. by rewrite Heq. }
    exists (confirmed e escrowId s).
    rewrite confirmDelivery_eq by auto.
    rewrite Hr'. cbn. rewrite Hbc.
    repeat split; try assumption.
  - intros Hb Hmul Hno. specialize (Hbuy Hb).
    rewrite confirmDelivery_eq by auto.
    rewrite Hbuy. cbn.
    apply completeEscrow_unpaid; rewrite ?fee_of_confirmed, ?Hbuy; cbn; assumption.
Qed.

Lemma confirmDelivery_buyer_alone_releases_witness :
  reachable one_pending /\
  created one_pending 1 /\
  status (escrow_at 1 one_pending) = PENDING /\
  (exists s', confirmDelivery (by_ alice 2000) 1 one_pending = Ok tt s' /\
     status (escrow_at 1 s') = DELIVERED /\
     sent s' = [(treasury, 2); (bob, 98)]) /\
  (exists s', confirmDelivery (by_ bob 2000) 1 one_pending = Ok tt s' /\
     sellerConfirmed (escrow_at 1 s') = true /\
     status (escrow_at 1 s') = PENDING /\
     sent s' = []).
Proof.
  assert (Hr : reachable one_pending) by (apply reachable_run, reach_deploy).
  assert (Hc : created one_pending 1)
    by (split; [vm_compute; discriminate | vm_compute; reflexivity]).
  assert (Hp : status (escrow_at 1 one_pending) = PENDING) by (vm_compute; reflexivity).
  split; [exact Hr | split; [exact Hc | split; [exact Hp |]]].
  split.
  - destruct (confirmDelivery_buyer_alone_releases one_pending (by_ alice 2000) 1
                Hr Hc Hp) as [Hbuyer _].
    destruct Hbuyer as (s' & Hrun & Hst & _ & _ & Hsent & _);
      try (vm_compute; (reflexivity || discriminate)).
    exists s'. split; [exact Hrun | split; [exact Hst | exact Hsent]].
  - destruct (confirmDelivery_buyer_alone_releases one_pending (by_ bob 2000) 1
                Hr Hc Hp) as (_ & Hseller & _).
    destruct Hseller as (s' & Hrun & Hsc & _ & Hst & Hsent & _);
      try (vm_compute; reflexivity).
    exists s'.
    split; [exact Hrun | split; [exact Hsc | split; [exact Hst | exact Hsent]]].
Defined.

(** The buyer's confirmation does not always complete a PENDING escrow:
    after the owner has withdrawn the balance it reverts and the escrow
    stays PENDING, on a chain where every account accepts payments. *)
Lemma confirmDelivery_reverts_after_withdrawal :
  reachable swept /\
  created swept 1 /\
  status (escrow_at 1 swept) = PENDING /\
  msg_sender (by_ alice 3000) = buyer (escrow_at 1 swept) /\
  confirmDelivery (by_ alice 3000) 1 swept = Err TransferFailed /\
  status (escrow_at 1 (commit (confirmDelivery (by_ alice 3000) 1) swept)) = PENDING.
Proof.
  split; [do 2 apply reach_commit; apply reach_deploy |].
  split; [split; [vm_compute; discriminate | vm_compute; reflexivity] |].
  vm_compute. repeat split; reflexivity.
Qed.

(** ** Lookup *)

(** Ids handed out start at 1: [createEscrow] never returns 0. *)
Lemma createEscrow_never_zero s e v sl descr d id s' :
  reachable s -> createEscrow e v sl descr d s = Ok id s' -> id <> 0.
Proof.
  intros Hs H. apply createEscrow_inv in H.
  destruct H as (_&_&_&_&_&_& -> & _).
  pose proof (wf_next s (reachable_wf s Hs)). lia.
Qed.

Lemma getEscrow_cases s id :
  (nextEscrowId s <= id -> fails_as (getEscrow id s) NotFound) /\
  (id < nextEscrowId s -> getEscrow id s = Ok (escrow_at id s) s).
Proof.
  split; intros Hid; run_entry; solve [solve_fails | reflexivity].
Qed.

(** C4 at the failing input.  Id 0 is never handed out, yet on a freshly
    deployed contract [getEscrow 0] does not revert: it returns the
    all-zero record. *)
Theorem getEscrow_zero_not_rejected (deployer wallet : address) (funds : N) :
  getEscrow 0 (constructor_ deployer wallet funds) =
  Ok zero_escrow (constructor_ deployer wallet funds).
Proof. reflexivity. Qed.

(** The same in every reachable state: whatever slot 0 holds is returned. *)
Lemma getEscrow_zero_reachable s :
  reachable s -> ~ created s 0 /\ getEscrow 0 s = Ok (escrow_at 0 s) s.
Proof.
  intros Hs. split; [intros [H _]; lia|].
  apply getEscrow_cases. pose proof (wf_next s (reachable_wf s Hs)). lia.
Qed.

(** ** Payouts *)

Lemma transition_settlement_only s s' :
  wf s -> transition s false s' -> settlement_only s s'.
Proof.
  intros Hwf Ht. unfold settlement_only.
  inversion Ht; subst.
  - left. split; [done | split; [cbn; lia |]]. intros id. records; [|done].
    by rewrite escrow_at_unset by (assumption || lia).
  - left. split; [done | split; [cbn; lia |]]. intros id'. records; try done.
    all: by destruct (msg_sender e =? _).
  - right. exists id. left. unfold completes.
    rewrite escrow_at_settled. case_decide; [|done]. cbn.
    rewrite settlement_confirmed, amount_confirmed, H0.
    repeat split; try assumption; try lia.
    intros id' Hne. records; congruence.
  - right. exists id. right. unfold refunds.
    rewrite escrow_at_refunded. case_decide; [|done]. cbn.
    repeat split; try assumption; try lia.
    + by destruct H0 as [-> | ->].
    + intros id' Hne. records; congruence.
  - left. split; [done | split; [cbn; lia |]]. intros id'. records; try done.
    all: by rewrite H0.
  - right. exists id. left. unfold completes.
    rewrite escrow_at_settled. case_decide; [|done]. cbn. rewrite H0.
    repeat split; try assumption; try lia.
    intros id' Hne. records; congruence.
  - left. split; [done | split; [cbn; lia | done]].
  - left. split; [done | split; [cbn; lia | done]].
Qed.

(** The payout events of an escrow: none while it is PENDING or DISPUTED,
    exactly one once it is DELIVERED or REFUNDED. *)
Lemma payouts_at_most_once s id :
  reachable s ->
  payouts id (events s) = if final (status (escrow_at id s)) then 1%nat else 0%nat.
Proof. intros Hs. apply (wf_paid s (reachable_wf s Hs)). Qed.

(** A settled record is never touched again. *)
Lemma transition_final_frozen s b s' id :
  transition s b s' -> final (status (escrow_at id s)) = true ->
  nextEscrowId s <= id \/ escrow_at id s' = escrow_at id s.
Proof.
  intros Ht Hfin. destruct Ht; records; auto.
  all: try lia.
  all: repeat match goal with
       | H : _ \/ _ |- _ => destruct H
       end.
  all: match goal with
       | H : status ?r = _ |- _ => rewrite H in Hfin; discriminate Hfin
       end.
Qed.

(** C5 (as the code has it).  In a reachable state, a call other than
    [emergencyWithdraw] that goes through either lets no funds out, or
    completes one escrow that was not settled yet (fee to the platform
    wallet, the rest to the seller, adding up to the amount), or refunds
    one such escrow in full to its buyer; a settled escrow is never
    touched again, and whatever the calls, each escrow has at most one
    payout on record.  [emergencyWithdraw] by the owner sends the whole
    balance, held funds included, to the owner and changes no record. *)
Theorem funds_leave_by_settlement_only (s : Contract) :
  reachable s ->
  (forall e c u s', is_withdraw c = false -> exec e c s = Ok u s' ->
     settlement_only s s') /\
  (forall e c id, created s id -> final (status (escrow_at id s)) = true ->
     escrow_at id (commit (exec e c) s) = escrow_at id s) /\
  (forall txs id, (payouts id (events (run txs s)) <= 1)%nat) /\
  (forall e u s', emergencyWithdraw e s = Ok u s' ->
     msg_sender e = owner s /\
     sent s' = sent s ++ [(owner s, balance s)] /\
     balance s' = 0 /\
     escrows s' = escrows s).
Proof.
  intros Hs. pose proof (reachable_wf s Hs) as Hwf. repeat split.
  - intros e c u s' Hc H. apply exec_transition in H. rewrite Hc in H.
    by apply transition_settlement_only.
  - intros e c id [_ Hid] Hfin.
    destruct (commit_cases e c s) as [->|Ht]; [done|].
    destruct (transition_final_frozen s _ _ id Ht Hfin); [lia|done].
  - intros txs id.
    rewrite (payouts_at_most_once (run txs s) id (reachable_run txs s Hs)).
    destruct (final _); lia.
  - run_entry; done.
  - run_entry; injection H as _ <-; done.
  - run_entry; injection H as _ <-; cbn; lia.
  - run_entry; injection H as _ <-; done.
Qed.

Lemma funds_leave_by_settlement_only_witness :
  reachable one_pending /\
  settlement_only one_pending one_delivered /\
  (payouts 1 (events (run [(by_ alice 2000, ConfirmDelivery 1);
                           (by_ alice 700000, RequestRefund 1);
                           (by_ alice 700001, ConfirmDelivery 1)]
                          one_pending)) <= 1)%nat /\
  (exists s', emergencyWithdraw (by_ carol 2000) one_pending = Ok tt s' /\
     sent s' = [(carol, 100)] /\ balance s' = 0).
Proof.
  assert (Hr : reachable one_pending) by (apply reachable_run, reach_deploy).
  destruct (funds_leave_by_settlement_only one_pending Hr) as (Hstep & _ & Hpaid & Hw).
  split; [exact Hr|].
  split.
  - apply (Hstep (by_ alice 2000) (ConfirmDelivery 1) tt one_delivered).
    + reflexivity.
    + vm_compute; reflexivity.
  - split; [apply Hpaid|].
    exists swept.
    assert (Hrun : emergencyWithdraw (by_ carol 2000) one_pending = Ok tt swept)
      by (vm_compute; reflexivity).
    destruct (Hw _ _ _ Hrun) as (_ & Hsent & Hbal & _).
    split; [exact Hrun | split; [exact Hsent | exact Hbal]].
Defined.

Lemma swept_all_pending id : status (escrow_at id swept) = PENDING.
Proof.
  unfold escrow_at.
  replace (escrows swept)
    with (<[1 := mkEscrow alice bob 100 PENDING 1000 605800 "book" false false]>
            (∅ : gmap N EscrowTransaction))
    by (vm_compute; reflexivity).
  rewrite lookup_insert. case_decide; [done|]. by rewrite lookup_empty.
Qed.

(** The owner's withdrawal is not a settlement: with one escrow of 100
    PENDING, [emergencyWithdraw] sends those 100 to the owner, while the
    escrow stays PENDING with nothing left to settle it from. *)
Lemma emergencyWithdraw_takes_held_funds :
  reachable one_pending /\
  status (escrow_at 1 one_pending) = PENDING /\
  amount (escrow_at 1 one_pending) = 100 /\
  balance one_pending = 100 /\
  exec (by_ carol 2000) EmergencyWithdraw one_pending = Ok tt swept /\
  sent swept = [(carol, 100)] /\
  balance swept = 0 /\
  status (escrow_at 1 swept) = PENDING /\
  ~ settlement_only one_pending swept.
Proof.
  split; [apply reachable_run, reach_deploy|].
  do 7 (split; [vm_compute; reflexivity|]).
  intros [(Hsent & _) | (id & [(_ & _ & Hst & _) | (_ & _ & Hst & _)])].
  - vm_compute in Hsent. discriminate Hsent.
  - rewrite swept_all_pending in Hst. discriminate Hst.
  - rewrite swept_all_pending in Hst. discriminate Hst.
Qed.

(** ** The 2.5% scenario *)

(** On a freshly deployed contract a buyer escrows [v] for a seller with
    seven days to deliver and then confirms delivery: the escrow gets id 1
    and ends DELIVERED, the platform wallet is paid the fee of 250 basis
    points, rounded down, when that is not nothing, and the seller the
    rest. *)
Lemma fresh_escrow_confirmed (deployer wallet buyer_ seller_ : address)
    (funds t0 t1 v : N) (accepts : address -> bool) (descr : string) :
  0 < v -> v * 250 <= uint256_max ->
  seller_ <> 0 -> seller_ <> buyer_ ->
  t0 + 7 * days <= uint256_max ->
  accepts wallet = true -> accepts seller_ = true ->
  let s0 := constructor_ deployer wallet funds in
  let fee := v * 250 / 10000 in
  exists s1 s2,
    createEscrow (mkEnv buyer_ t0 accepts) v seller_ descr 7 s0 = Ok 1 s1 /\
    confirmDelivery (mkEnv buyer_ t1 accepts) 1 s1 = Ok tt s2 /\
    status (escrow_at 1 s2) = DELIVERED /\
    sent s2 = (if 0 <? fee then [(wallet, fee)] else []) ++ [(seller_, v - fee)].
Proof.
  intros Hv Hmul Hs0 Hsb Ht Hw Hsl s0 fee.
  set (e0 := mkEnv buyer_ t0 accepts). set (e1 := mkEnv buyer_ t1 accepts).
  set (s1 := opened e0 v seller_ descr 7 s0).
  assert (Hr1 : escrow_at 1 s1 =
                mkEscrow buyer_ seller_ v PENDING t0 (t0 + 7 * days)
                         descr false false).
  { subst s1. rewrite escrow_at_opened.
    case_decide as Hn; [reflexivity | exfalso; apply Hn; reflexivity]. }
  assert (Hc1 : escrow_at 1 (confirmed e1 1 s1) =
                set_buyerConfirmed true (escrow_at 1 s1)).
  { rewrite escrow_at_confirmed. case_decide; [|congruence].
    rewrite Hr1. cbn. rewrite N.eqb_refl. reflexivity. }
  assert (Hfee : fee_of s1 (escrow_at 1 s1) = fee).
  { rewrite Hr1. reflexivity. }
  assert (Hle : fee <= v).
  { subst fee. apply N.Div0.div_le_upper_bound. lia. }
  clearbody fee.
  exists s1, (settled 1 (confirmed e1 1 s1)).
  split.
  { apply (createEscrow_ok e0 v seller_ descr 7 s0).
    - exact Hv.
    - exact Hs0.
    - exact Hsb.
    - split; vm_compute; discriminate.
    - vm_compute; discriminate.
    - exact Ht. }
  split.
  { rewrite confirmDelivery_eq.
    - rewrite Hc1, Hr1.
      change (buyerConfirmed (set_buyerConfirmed true _)) with true.
      cbv iota.
      apply completeEscrow_ok; rewrite ?fee_of_confirmed, ?Hc1, ?Hfee, ?Hr1.
      + exact Hmul.
      + exact Hle.
      + change (v <= funds + v). lia.
      + intros _. exact Hw.
      + exact Hsl.
    - vm_compute; reflexivity.
    - rewrite Hr1. reflexivity.
    - left. rewrite Hr1. reflexivity. }
  split.
  { rewrite escrow_at_settled. case_decide; [|congruence]. reflexivity. }
  change (sent (settled 1 (confirmed e1 1 s1)))
    with ([] ++ settlement (confirmed e1 1 s1) (escrow_at 1 (confirmed e1 1 s1))).
  rewrite settlement_confirmed. unfold settlement. rewrite Hfee, Hr1.
  reflexivity.
Qed.

(** C9 (as the code has it).  Amounts are whole numbers of base units and
    the fee is rounded down.  On a freshly deployed contract (fee 250 basis
    points) a buyer escrows 100 for a seller with seven days to deliver and
    then confirms delivery, the platform wallet and the seller accepting
    payments: the escrow gets id 1 and ends DELIVERED, the platform wallet
    is paid 2 and the seller 98. *)
Theorem scenario_amount_100 (deployer wallet buyer_ seller_ : address)
    (funds t0 t1 : N) (accepts : address -> bool) (descr : string) :
  seller_ <> 0 -> seller_ <> buyer_ ->
  t0 + 7 * days <= uint256_max ->
  accepts wallet = true -> accepts seller_ = true ->
  let s0 := constructor_ deployer wallet funds in
  exists s1 s2,
    platformFee s0 = 250 /\
    createEscrow (mkEnv buyer_ t0 accepts) 100 seller_ descr 7 s0 = Ok 1 s1 /\
    confirmDelivery (mkEnv buyer_ t1 accepts) 1 s1 = Ok tt s2 /\
    status (escrow_at 1 s2) = DELIVERED /\
    sent s2 = [(wallet, 2); (seller_, 98)].
Proof.
  intros Hs0 Hsb Ht Hw Hsl s0.
  assert (Hv : 0 < 100) by reflexivity.
  assert (Hmul : 100 * 250 <= uint256_max) by (vm_compute; discriminate).
  destruct (fresh_escrow_confirmed deployer wallet buyer_ seller_ funds t0 t1 100
              accepts descr Hv Hmul Hs0 Hsb Ht Hw Hsl)
    as (s1 & s2 & H1 & H2 & H3 & H4).
  exists s1, s2.
  split; [reflexivity|].
  split; [exact H1|]. split; [exact H2|]. split; [exact H3|].
  exact H4.
Qed.

Lemma scenario_amount_100_witness :
  exists s1 s2,
    createEscrow (by_ alice 1000) 100 bob "book" 7 fresh = Ok 1 s1 /\
    confirmDelivery (by_ alice 2000) 1 s1 = Ok tt s2 /\
    status (escrow_at 1 s2) = DELIVERED /\
    sent s2 = [(treasury, 2); (bob, 98)].
Proof.
  assert (Hc : bob <> 0) by (vm_compute; discriminate).
  assert (Hd : bob <> alice) by (vm_compute; discriminate).
  assert (He : 1000 + 7 * days <= uint256_max) by (vm_compute; discriminate).
  destruct (scenario_amount_100 carol treasury alice bob 0 1000 2000
              (fun _ => true) "book" Hc Hd He eq_refl eq_refl)
    as (s1 & s2 & _ & H1 & H2 & H3 & H4).
  exists s1, s2.
  split; [exact H1 | split; [exact H2 | split; [exact H3 | exact H4]]].
Defined.

(** The scenario as the specification words it, run: alice escrows 100 for
    a purchase from bob on the fresh contract and confirms delivery.  The
    treasury is paid 2 and bob 98; no payment to bob is 97.5 (a [p] with
    [2 * p = 195]) and none to the treasury is 2.5 ([2 * p = 5]). *)
Lemma amount_100_pays_2_and_98 :
  platformFee fresh = 250 /\
  createEscrow (by_ alice 1000) 100 bob "book" 7 fresh = Ok 1 one_pending /\
  confirmDelivery (by_ alice 2000) 1 one_pending = Ok tt one_delivered /\
  status (escrow_at 1 one_delivered) = DELIVERED /\
  sent one_delivered = [(treasury, 2); (bob, 98)] /\
  ~ (exists p, In (bob, p) (sent one_delivered) /\ 2 * p = 195) /\
  ~ (exists p, In (treasury, p) (sent one_delivered) /\ 2 * p = 5).
Proof.
  assert (Hsent : sent one_delivered = [(treasury, 2); (bob, 98)])
    by (vm_compute; reflexivity).
  split; [reflexivity|].
  split; [vm_compute; reflexivity|].
  split; [vm_compute; reflexivity|].
  split; [vm_compute; reflexivity|].
  split; [exact Hsent|].
  rewrite Hsent.
  split; intros (p & [Hin|[Hin|[]]] & Hp);
    apply (f_equal snd) in Hin; cbn in Hin; subst p; lia.
Qed.

(** The figures 2.5 and 97.5 are those of a denomination that has a half:
    for 100 ether, as the application enters amounts, 2.5 ether go to the
    treasury and 97.5 ether to bob. *)
Example scenario_in_ether :
  exists s1 s2,
    createEscrow (by_ alice 1000) (100 * ether) bob "book" 7 fresh = Ok 1 s1 /\
    confirmDelivery (by_ alice 2000) 1 s1 = Ok tt s2 /\
    status (escrow_at 1 s2) = DELIVERED /\
    sent s2 = [(treasury, 2500000000000000000); (bob, 97500000000000000000)].
Proof.
  assert (Ha : 0 < 100 * ether) by (vm_compute; reflexivity).
  assert (Hb : 100 * ether * 250 <= uint256_max) by (vm_compute; discriminate).
  assert (Hc : bob <> 0) by (vm_compute; discriminate).
  assert (Hd : bob <> alice) by (vm_compute; discriminate).
  assert (He : 1000 + 7 * days <= uint256_max) by (vm_compute; discriminate).
  destruct (fresh_escrow_confirmed carol treasury alice bob 0 1000 2000 (100 * ether)
              (fun _ => true) "book" Ha Hb Hc Hd He eq_refl eq_refl)
    as (s1 & s2 & H1 & H2 & H3 & H4).
  exists s1, s2.
  split; [exact H1 | split; [exact H2 | split; [exact H3 | exact H4]]].
Qed.

(** * The rest of the contract *)

(** ** Loop counters *)

Lemma range_nil lo hi : hi <= lo -> range lo hi = [].
Proof.
  intros H. unfold range.
  replace (N.to_nat hi - N.to_nat lo)%nat with 0%nat by lia. reflexivity.
Qed.

Lemma In_range lo hi x : In x (range lo hi) <-> lo <= x < hi.
Proof.
  unfold range. rewrite in_map_iff. split.
  - intros (n & <- & Hn). apply in_seq in Hn. lia.
  - intros Hx. exists (N.to_nat x). split; [apply N2Nat.id|].
    apply in_seq. lia.
Qed.

Lemma range_app lo mid hi :
  lo <= mid -> mid <= hi -> range lo hi = range lo mid ++ range mid hi.
Proof.
  intros H1 H2. unfold range. rewrite <- map_app. f_equal.
  replace (N.to_nat hi - N.to_nat lo)%nat
    with ((N.to_nat mid - N.to_nat lo) + (N.to_nat hi - N.to_nat mid))%nat by lia.
  rewrite seq_app. do 2 f_equal. lia.
Qed.

Lemma range_one lo : range lo (lo + 1) = [lo].
Proof.
  unfold range.
  replace (N.to_nat (lo + 1) - N.to_nat lo)%nat with 1%nat by lia.
  cbn. by rewrite N2Nat.id.
Qed.

Lemma range_snoc lo hi : lo <= hi -> range lo (hi + 1) = range lo hi ++ [hi].
Proof.
  intros H. rewrite (range_app lo hi (hi + 1)) by lia. by rewrite range_one.
Qed.

Lemma range_cons lo hi : lo < hi -> range lo hi = lo :: range (lo + 1) hi.
Proof.
  intros H. rewrite (range_app lo (lo + 1) hi) by lia. by rewrite range_one.
Qed.

Lemma length_range lo hi : length (range lo hi) = N.to_nat (hi - lo).
Proof. unfold range. rewrite length_map, length_seq. lia. Qed.

Lemma range_split lo hi x :
  lo <= x < hi -> range lo hi = range lo x ++ x :: range (x + 1) hi.
Proof.
  intros H. rewrite (range_app lo x hi) by lia. by rewrite (range_cons x hi) by lia.
Qed.

Lemma range_sorted lo hi : StronglySorted N.lt (range lo hi).
Proof.
  unfold range. generalize (N.to_nat hi - N.to_nat lo)%nat as n.
  generalize (N.to_nat lo) as k. intros k n. revert k.
  induction n as [|n IH]; intros k; cbn; constructor; [apply IH|].
  apply List.Forall_forall. intros x Hx. apply in_map_iff in Hx.
  destruct Hx as (m & <- & Hm). apply in_seq in Hm. lia.
Qed.

Lemma filter_sorted (p : N -> bool) l :
  StronglySorted N.lt l -> StronglySorted N.lt (List.filter p l).
Proof.
  induction 1 as [|x l Hs IH Hall]; cbn; [constructor|].
  destruct (p x); [|exact IH]. constructor; [exact IH|].
  apply List.Forall_forall. intros y Hy. apply filter_In in Hy.
  rewrite List.Forall_forall in Hall. apply Hall. tauto.
Qed.

(** ** Memory arrays *)

Lemma mstore_ok a i v s :
  (N.to_nat i < length a)%nat -> mstore a i v s = Ok (<[N.to_nat i := v]> a) s.
Proof.
  intros H. unfold mstore.
  replace (i <? N.of_nat (length a)) with true by (symmetry; apply N.ltb_lt; lia).
  reflexivity.
Qed.

Lemma mload_ok a i v s : a !! N.to_nat i = Some v -> mload a i s = Ok v s.
Proof. intros H. unfold mload. by rewrite H. Qed.

(** The first loop of [getUserEscrows]: from [count] on, the array takes
    the matching ids in order. *)
Lemma scan_loop user s l a c :
  (N.to_nat c + length l <= length a)%nat ->
  N.of_nat (length a) <= uint256_max ->
  exists a',
    for_each l (getUserEscrows_scan user) (a, c) s =
      Ok (a', c + N.of_nat (length (List.filter (is_party user s) l))) s /\
    length a' = length a /\
    take (N.to_nat c + length (List.filter (is_party user s) l)) a' =
      take (N.to_nat c) a ++ List.filter (is_party user s) l.
Proof.
  revert a c. induction l as [|i l IH]; intros a c Hlen Hmax; cbn [for_each].
  - exists a. cbn. rewrite N.add_0_r, Nat.add_0_r, app_nil_r. auto.
  - cbn [length] in Hlen. cbn [List.filter].
    unfold getUserEscrows_scan at 1. unfold bind at 1 2. unfold load, gets.
    change ((buyer (escrow_at i s) =? user) || (seller (escrow_at i s) =? user))
      with (is_party user s i).
    destruct (is_party user s i) eqn:Hp.
    + unfold bind at 1. rewrite mstore_ok by lia.
      unfold bind at 1. unfold checked_add.
      replace (c + 1 <=? uint256_max) with true by (symmetry; apply N.leb_le; lia).
      unfold ret at 1 2.
      destruct (IH (<[N.to_nat c := i]> a) (c + 1)) as (a' & Hrun & Hl & Htake).
      { rewrite length_insert. lia. }
      { by rewrite length_insert. }
      exists a'. rewrite Hrun. cbn [length].
      replace (c + N.of_nat (S (length (List.filter (is_party user s) l))))
        with (c + 1 + N.of_nat (length (List.filter (is_party user s) l))) by lia.
      split; [reflexivity|]. rewrite length_insert in Hl. split; [exact Hl|].
      replace (N.to_nat c + S (length (List.filter (is_party user s) l)))%nat
        with (N.to_nat (c + 1) + length (List.filter (is_party user s) l))%nat by lia.
      rewrite Htake. replace (N.to_nat (c + 1)) with (S (N.to_nat c)) by lia.
      rewrite (take_S_r _ _ i) by (apply list_lookup_insert_eq; lia).
      rewrite take_insert_ge by lia. by rewrite <- app_assoc.
    + unfold ret at 1.
      destruct (IH a c) as (a' & Hrun & Hl & Htake); [lia | assumption |].
      exists a'. auto.
Qed.

(** The second loop: the first [n] slots are copied. *)
Lemma copy_loop src s n m k r :
  (k + m = n)%nat -> length r = n -> (n <= length src)%nat ->
  exists r',
    for_each (map N.of_nat (seq k m)) (getUserEscrows_copy src) r s = Ok r' s /\
    length r' = n /\
    take k r' = take k r /\
    (forall i, (k <= i < n)%nat -> r' !! i = src !! i).
Proof.
  revert k r. induction m as [|m IH]; intros k r Hk Hr Hn; cbn [seq map for_each].
  - exists r. repeat split; try done. intros i Hi. lia.
  - destruct (lookup_lt_is_Some_2 src k) as [v Hv]; [lia|].
    unfold getUserEscrows_copy at 1. unfold bind at 1 2.
    rewrite (mload_ok src (N.of_nat k) v) by (by rewrite Nat2N.id).
    rewrite mstore_ok by (rewrite Nat2N.id; lia). rewrite Nat2N.id.
    destruct (IH (S k) (<[k := v]> r)) as (r' & Hrun & Hl & Htake & Hget).
    { lia. } { by rewrite length_insert. } { exact Hn. }
    exists r'. split; [exact Hrun|]. split; [exact Hl|].
    assert (Hk' : r' !! k = Some v).
    { rewrite <- (lookup_take_lt r' (S k) k) by lia. rewrite Htake.
      rewrite lookup_take_lt by lia. apply list_lookup_insert_eq. lia. }
    split.
    + replace (take k r') with (take k (take (S k) r'))
        by (rewrite take_take; f_equal; lia).
      rewrite Htake, take_take. replace (k `min` S k)%nat with k by lia.
      apply take_insert_ge. lia.
    + intros i Hi. destruct (decide (i = k)) as [->|Hne]; [congruence|].
      apply Hget. lia.
Qed.

Lemma getUserEscrows_eq user s :
  1 <= nextEscrowId s -> nextEscrowId s <= uint256_max ->
  getUserEscrows user s =
  Ok (List.filter (is_party user s) (range 1 (nextEscrowId s))) s.
Proof.
  intros H1 Hmax. unfold getUserEscrows.
  unfold bind at 1. unfold gets at 1.
  unfold bind at 1. unfold checked_sub.
  replace (1 <=? nextEscrowId s) with true by (symmetry; by apply N.leb_le).
  unfold ret at 1.
  set (l := range 1 (nextEscrowId s)).
  set (f := List.filter (is_party user s) l).
  assert (Hll : length l = N.to_nat (nextEscrowId s - 1)) by apply length_range.
  assert (Hfl : (length f <= length l)%nat) by apply List.filter_length_le.
  destruct (scan_loop user s l (new_array (nextEscrowId s - 1)) 0)
    as (a' & Hrun & Hla & Htake).
  { unfold new_array. rewrite length_replicate. lia. }
  { unfold new_array. rewrite length_replicate. lia. }
  unfold bind at 1. rewrite Hrun. fold f in Htake |- *.
  unfold new_array in Hla. rewrite length_replicate in Hla.
  cbn in Htake.
  unfold range.
  destruct (copy_loop a' s (length f) (length f) 0
              (new_array (N.of_nat (length f)))) as (r' & Hcopy & Hlr & _ & Hget).
  { reflexivity. }
  { unfold new_array. rewrite length_replicate. lia. }
  { lia. }
  replace (N.to_nat (0 + N.of_nat (length f)) - N.to_nat 0)%nat with (length f) by lia.
  change (N.to_nat 0) with 0%nat.
  replace (0 + N.of_nat (length f)) with (N.of_nat (length f)) by lia.
  rewrite Hcopy. f_equal.
  change (take (length f) a' = f) in Htake.
  rewrite <- Htake. apply list_eq. intros i.
  destruct (decide (i < length f)%nat) as [Hi|Hi].
  - rewrite lookup_take_lt by lia. apply Hget. lia.
  - rewrite lookup_take_ge by lia. apply lookup_ge_None_2. lia.
Qed.

(** ** Every successful call is a step *)

Lemma exec_step e c s u s' : exec e c s = Ok u s' -> step e s c s'.
Proof.
  destruct c; cbn [exec]; intros H.
  - unfold bind in H.
    destruct (createEscrow e msg_value seller0 itemDescription0 deliveryDays s)
      as [id s1|] eqn:Hc; [|discriminate].
    injection H as _ <-. apply createEscrow_inv in Hc.
    destruct Hc as (? & ? & ? & ? & ? & ? & _ & ->). by constructor.
  - destruct (confirmDelivery_inv _ _ _ _ _ H) as (Hid & Hst & Hwho).
    rewrite confirmDelivery_eq in H by assumption.
    destruct (buyerConfirmed (escrow_at escrowId (confirmed e escrowId s))) eqn:Hbc.
    + apply completeEscrow_inv in H. destruct H as (-> & _ & Hfee & Hbal & _).
      rewrite fee_of_confirmed, amount_confirmed in *.
      by constructor.
    + injection H as _ <-. by constructor.
  - apply requestRefund_inv in H.
    destruct H as (-> & ? & ? & ? & ? & ? & _). by constructor.
  - run_entry; injection H as _ <-; apply step_dispute; auto.
  - apply resolveDispute_inv in H. destruct H as (? & ? & ? & ? & H).
    destruct refundToBuyer.
    + subst s'. by constructor.
    + destruct H as [-> ?]. by constructor.
  - run_entry; injection H as _ <-; by constructor.
  - run_entry; injection H as _ <-; by constructor.
  - run_entry; injection H as _ <-; by apply step_withdraw.
Qed.

Lemma commit_step e c s :
  commit (exec e c) s = s \/ step e s c (commit (exec e c) s).
Proof.
  unfold commit. destruct (exec e c s) as [u s'|f] eqn:H; [|by left].
  right. by apply exec_step in H.
Qed.

(** A property kept by every step holds along every run. *)
Lemma run_invariant (P : Contract -> Prop) :
  (forall e c s s', P s -> step e s c s' -> P s') ->
  forall txs s, P s -> P (run txs s).
Proof.
  intros Hstep txs. induction txs as [|[e c] txs IH]; intros s Hs; cbn; [done|].
  apply IH. destruct (commit_step e c s) as [->|H]; [done|]. eauto.
Qed.

Lemma reachable_invariant (P : Contract -> Prop) :
  (forall d w f, P (constructor_ d w f)) ->
  (forall e c s s', reachable s -> P s -> step e s c s' -> P s') ->
  forall s, reachable s -> P s.
Proof.
  intros Hinit Hstep s Hs. induction Hs as [d w f|s e c Hs IH]; [apply Hinit|].
  destruct (commit_step e c s) as [->|H]; [done|]. eauto.
Qed.

(** What a step does to the counter, the owner and the records. *)
Lemma step_next e c s s' : step e s c s' -> nextEscrowId s <= nextEscrowId s'.
Proof. destruct 1; cbn; lia. Qed.

Lemma step_owner e c s s' : step e s c s' -> owner s' = owner s.
Proof. by destruct 1. Qed.

Lemma step_terms e c s s' id :
  step e s c s' -> id < nextEscrowId s ->
  same_terms (escrow_at id s) (escrow_at id s') /\
  (buyerConfirmed (escrow_at id s) = true -> buyerConfirmed (escrow_at id s') = true) /\
  (sellerConfirmed (escrow_at id s) = true -> sellerConfirmed (escrow_at id s') = true).
Proof.
  intros Hstep Hid. unfold same_terms. destruct Hstep; records; try lia.
  all: try (repeat split; done).
  all: destruct (msg_sender e =? _); cbn; repeat split; done.
Qed.

Lemma run_next txs s : nextEscrowId s <= nextEscrowId (run txs s).
Proof.
  apply (run_invariant (fun s' => nextEscrowId s <= nextEscrowId s')); [|lia].
  intros e c s1 s2 H1 Hst. apply step_next in Hst. lia.
Qed.

Lemma run_owner txs s : owner (run txs s) = owner s.
Proof.
  apply (run_invariant (fun s' => owner s' = owner s)); [|done].
  intros e c s1 s2 H1 Hst. apply step_owner in Hst. congruence.
Qed.

Lemma run_terms txs s id :
  id < nextEscrowId s ->
  same_terms (escrow_at id s) (escrow_at id (run txs s)) /\
  (buyerConfirmed (escrow_at id s) = true ->
     buyerConfirmed (escrow_at id (run txs s)) = true) /\
  (sellerConfirmed (escrow_at id s) = true ->
     sellerConfirmed (escrow_at id (run txs s)) = true).
Proof.
  intros Hid.
  apply (run_invariant (fun s' =>
    id < nextEscrowId s' /\
    same_terms (escrow_at id s) (escrow_at id s') /\
    (buyerConfirmed (escrow_at id s) = true -> buyerConfirmed (escrow_at id s') = true) /\
    (sellerConfirmed (escrow_at id s) = true ->
       sellerConfirmed (escrow_at id s') = true))).
  - intros e c s1 s2 (Hid1 & Ht & Hb & Hs) Hst.
    pose proof (step_next _ _ _ _ Hst).
    destruct (step_terms _ _ _ _ id Hst Hid1) as (Ht' & Hb' & Hs').
    split; [lia|]. unfold same_terms in *. intuition congruence.
  - unfold same_terms. tauto.
Qed.

Lemma wf_terms_constructor d w f : wf_terms (constructor_ d w f).
Proof.
  split; cbn.
  - unfold uint256_max. lia.
  - reflexivity.
  - intros id [H1 H2]. cbn in H2. lia.
Qed.

Lemma wf_terms_step e c s s' : wf s -> wf_terms s -> step e s c s' -> wf_terms s'.
Proof.
  intros Hwf [Hn Hz Hd] Hst.
  pose proof (wf_next s Hwf) as Hn1.
  split.
  - destruct Hst; cbn; lia.
  - destruct (step_terms _ _ _ _ 0 Hst) as ((_ & _ & -> & _) & _); [lia|done].
  - intros id [Hc1 Hc2].
    destruct (N.lt_ge_cases id (nextEscrowId s)) as [Hold|Hnew].
    + destruct (step_terms _ _ _ _ id Hst Hold) as ((_ & _ & _ & -> & -> & _) & _).
      apply Hd. split; assumption.
    + destruct Hst; cbn in Hc2; try lia.
      assert (id = nextEscrowId s) as -> by lia.
      rewrite escrow_at_opened. case_decide; [|done]. cbn.
      unfold days in *. lia.
Qed.

Lemma reachable_wf_terms s : reachable s -> wf_terms s.
Proof.
  revert s. apply reachable_invariant.
  - apply wf_terms_constructor.
  - intros e c s s' Hs Hwt Hst.
    exact (wf_terms_step e c s s' (reachable_wf s Hs) Hwt Hst).
Qed.

(** Both invariants are kept by every action, a forced payment included. *)
Lemma act_wf a s : wf s -> wf (act a s).
Proof.
  intros Hwf. destruct a as [e c|v]; cbn [act].
  - destruct (commit_cases e c s) as [->|Ht]; [done|].
    exact (wf_transition s _ _ Hwf Ht).
  - destruct Hwf as [Hn Hu Hr Hf Hp]. split; [exact Hn|exact Hu|exact Hr|exact Hf|exact Hp].
Qed.

Lemma act_wf_terms a s : wf s -> wf_terms s -> wf_terms (act a s).
Proof.
  intros Hwf Hwt. destruct a as [e c|v]; cbn [act].
  - destruct (commit_step e c s) as [->|Hst]; [done|].
    exact (wf_terms_step e c s _ Hwf Hwt Hst).
  - destruct Hwt as [Hn Hz Hd]. split; [exact Hn|exact Hz|exact Hd].
Qed.

(** Without forced payments a history is a run. *)
Lemma history_transactions txs s : history (transactions txs) s = run txs s.
Proof.
  revert s. induction txs as [|[e c] txs IH]; intros s; cbn; [done|]. apply IH.
Qed.

(** ** Listing *)

Lemma is_party_spec user s id :
  is_party user s id = true <->
  buyer (escrow_at id s) = user \/ seller (escrow_at id s) = user.
Proof. unfold is_party. rewrite orb_true_iff, !N.eqb_eq. tauto. Qed.

Lemma reachable_listing user s :
  reachable s ->
  getUserEscrows user s =
  Ok (List.filter (is_party user s) (range 1 (nextEscrowId s))) s.
Proof.
  intros Hs. apply getUserEscrows_eq.
  - apply (wf_next s (reachable_wf s Hs)).
  - apply (wt_next s (reachable_wf_terms s Hs)).
Qed.

(** X1. In every reachable state [getUserEscrows] goes through and
    returns exactly the created ids whose buyer or seller is the given
    account, each once, in increasing order (the order of creation); id 0
    and ids not handed out yet are never listed. *)
Theorem getUserEscrows_lists_parties (user : address) (s : Contract) :
  reachable s ->
  exists ids,
    getUserEscrows user s = Ok ids s /\
    (forall id, In id ids <->
       created s id /\
       (buyer (escrow_at id s) = user \/ seller (escrow_at id s) = user)) /\
    StronglySorted N.lt ids.
Proof.
  intros Hs. eexists. split; [by apply reachable_listing|]. split.
  - intros id. rewrite filter_In, In_range, is_party_spec. reflexivity.
  - apply filter_sorted, range_sorted.
Qed.

Lemma getUserEscrows_lists_parties_witness :
  reachable two_pending /\
  getUserEscrows bob two_pending = Ok [1; 2] two_pending /\
  getUserEscrows alice two_pending = Ok [1] two_pending /\
  getUserEscrows mallory two_pending = Ok [] two_pending /\
  exists ids, getUserEscrows carol two_pending = Ok ids two_pending /\
              (In 2 ids <-> created two_pending 2 /\
                 (buyer (escrow_at 2 two_pending) = carol \/
                  seller (escrow_at 2 two_pending) = carol)).
Proof.
  assert (Hr : reachable two_pending)
    by (apply reachable_run, reachable_run, reach_deploy).
  split; [exact Hr|].
  do 3 (split; [vm_compute; reflexivity|]).
  destruct (getUserEscrows_lists_parties carol two_pending Hr) as (ids & H1 & H2 & _).
  exists ids. split; [exact H1 | apply H2].
Defined.

(** X2. Every id that [getUserEscrows] returns can be looked up: on the
    same state [getEscrow] returns its record, in which the account is the
    buyer or the seller, and [isDeliveryOverdue] answers; so a caller that
    walks the list, as the application's [loadUserEscrows] does, never
    meets an unknown id. *)
Theorem getUserEscrows_ids_resolve (user : address) (s s' : Contract)
    (ids : list N) (id : N) (e : Env) :
  reachable s ->
  getUserEscrows user s = Ok ids s' ->
  In id ids ->
  s' = s /\
  id <> 0 /\
  getEscrow id s = Ok (escrow_at id s) s /\
  (buyer (escrow_at id s) = user \/ seller (escrow_at id s) = user) /\
  isDeliveryOverdue e id s =
    Ok (deliveryDeadline (escrow_at id s) <? block_timestamp e) s.
Proof.
  intros Hs Hrun Hin. rewrite reachable_listing in Hrun by assumption.
  injection Hrun as <- <-.
  apply filter_In in Hin. destruct Hin as [Hr Hp].
  apply In_range in Hr. apply is_party_spec in Hp.
  split; [reflexivity|]. split; [lia|].
  split; [apply getEscrow_cases; lia|]. split; [exact Hp|].
  run_entry; reflexivity.
Qed.

Lemma getUserEscrows_ids_resolve_witness :
  reachable two_pending /\
  getUserEscrows bob two_pending = Ok [1; 2] two_pending /\
  In 2 [1; 2] /\
  getEscrow 2 two_pending =
    Ok (mkEscrow carol bob 40 PENDING 5000 91400 "lamp" false false) two_pending /\
  isDeliveryOverdue (by_ bob 91401) 2 two_pending = Ok true two_pending.
Proof.
  assert (Hr : reachable two_pending)
    by (apply reachable_run, reachable_run, reach_deploy).
  assert (Hl : getUserEscrows bob two_pending = Ok [1; 2] two_pending)
    by (vm_compute; reflexivity).
  assert (Hin : In 2 [1; 2]) by (right; left; reflexivity).
  destruct (getUserEscrows_ids_resolve bob two_pending two_pending [1; 2] 2
              (by_ bob 91401) Hr Hl Hin) as (_ & _ & Hg & _ & Ho).
  split; [exact Hr | split; [exact Hl | split; [exact Hin |]]].
  split; [exact Hg | exact Ho].
Defined.

Lemma filter_ext_range (p q : N -> bool) lo hi :
  (forall id, lo <= id < hi -> p id = q id) ->
  List.filter p (range lo hi) = List.filter q (range lo hi).
Proof.
  intros H. apply List.filter_ext_in. intros id Hin. apply H. by apply In_range.
Qed.

(** X3. A successful [createEscrow] appends the new id to the lists of its
    buyer and of its seller, and leaves the list of every other account as
    it was. *)
Theorem getUserEscrows_after_create (e : Env) (v : N) (sl : address)
    (descr : string) (d : N) (s : Contract) (id : N) (s' : Contract)
    (user : address) :
  reachable s ->
  createEscrow e v sl descr d s = Ok id s' ->
  exists before,
    getUserEscrows user s = Ok before s /\
    getUserEscrows user s' =
      Ok (before ++ if (msg_sender e =? user) || (sl =? user) then [id] else []) s'.
Proof.
  intros Hs Hc.
  assert (Hs' : reachable s').
  { assert (H : exec e (CreateEscrow v sl descr d) s = Ok tt s')
      by (cbn; unfold bind; by rewrite Hc).
    rewrite <- (commit_ok _ _ _ _ H). by constructor. }
  pose proof (wf_next s (reachable_wf s Hs)) as Hn.
  apply createEscrow_inv in Hc. destruct Hc as (_&_&_&_&_&_& -> & ->).
  eexists. split; [by apply reachable_listing|].
  rewrite reachable_listing by assumption. f_equal.
  change (nextEscrowId (opened e v sl descr d s)) with (nextEscrowId s + 1).
  rewrite range_snoc by lia. rewrite List.filter_app. f_equal.
  - apply filter_ext_range. intros i Hi. unfold is_party.
    rewrite escrow_at_opened. case_decide; [lia | reflexivity].
  - cbn. unfold is_party. rewrite escrow_at_opened.
    case_decide; [|done]. reflexivity.
Qed.

Lemma getUserEscrows_after_create_witness :
  reachable one_pending /\
  createEscrow (by_ carol 5000) 40 bob "lamp" 1 one_pending = Ok 2 two_pending /\
  getUserEscrows bob one_pending = Ok [1] one_pending /\
  getUserEscrows bob two_pending = Ok [1; 2] two_pending /\
  (exists before, getUserEscrows alice one_pending = Ok before one_pending /\
                  getUserEscrows alice two_pending = Ok (before ++ []) two_pending).
Proof.
  assert (Hr : reachable one_pending) by (apply reachable_run, reach_deploy).
  assert (Hc : createEscrow (by_ carol 5000) 40 bob "lamp" 1 one_pending
               = Ok 2 two_pending) by (vm_compute; reflexivity).
  split; [exact Hr | split; [exact Hc |]].
  do 2 (split; [vm_compute; reflexivity|]).
  exact (getUserEscrows_after_create _ _ _ _ _ _ _ _ alice Hr Hc).
Defined.

(** X4. The list of an account only ever grows at its end: after any
    transactions it is the earlier list followed by ids created since. *)
Theorem getUserEscrows_grows (s : Contract) (txs : list (Env * Call))
    (user : address) :
  reachable s ->
  exists before more,
    getUserEscrows user s = Ok before s /\
    getUserEscrows user (run txs s) = Ok (before ++ more) (run txs s) /\
    (forall id, In id more -> nextEscrowId s <= id).
Proof.
  intros Hs.
  pose proof (wf_next s (reachable_wf s Hs)) as Hn.
  pose proof (run_next txs s) as Hmono.
  exists (List.filter (is_party user s) (range 1 (nextEscrowId s))),
         (List.filter (is_party user (run txs s))
            (range (nextEscrowId s) (nextEscrowId (run txs s)))).
  split; [by apply reachable_listing|]. split.
  - rewrite reachable_listing by (by apply reachable_run). f_equal.
    rewrite (range_app 1 (nextEscrowId s) (nextEscrowId (run txs s))) by lia.
    rewrite List.filter_app. f_equal.
    apply filter_ext_range. intros i Hi. unfold is_party.
    destruct (run_terms txs s i) as ((-> & -> & _) & _); [lia | reflexivity].
  - intros id Hin. apply filter_In in Hin. destruct Hin as [Hr _].
    apply In_range in Hr. lia.
Qed.

Lemma getUserEscrows_grows_witness :
  reachable one_pending /\
  exists before more,
    getUserEscrows bob one_pending = Ok before one_pending /\
    getUserEscrows bob (run [(by_ alice 2000, ConfirmDelivery 1);
                             (by_ carol 5000, CreateEscrow 40 bob "lamp" 1)]
                            one_pending)
      = Ok (before ++ more)
           (run [(by_ alice 2000, ConfirmDelivery 1);
                 (by_ carol 5000, CreateEscrow 40 bob "lamp" 1)] one_pending).
Proof.
  assert (Hr : reachable one_pending) by (apply reachable_run, reach_deploy).
  split; [exact Hr|].
  destruct (getUserEscrows_grows one_pending
              [(by_ alice 2000, ConfirmDelivery 1);
               (by_ carol 5000, CreateEscrow 40 bob "lamp" 1)] bob Hr)
    as (before & more & H1 & H2 & _).
  exists before, more. split; [exact H1 | exact H2].
Defined.

(** ** What never changes *)

(** X5. Once an id is handed out its record keeps its terms for good:
    buyer, seller, amount, creation time, deadline and description are
    never written again, a confirmation flag that is set is never cleared,
    and the id stays handed out (the counter never goes back). *)
Theorem escrow_terms_are_final (s : Contract) (txs : list (Env * Call)) (id : N) :
  id < nextEscrowId s ->
  let r := escrow_at id s in
  let r' := escrow_at id (run txs s) in
  id < nextEscrowId (run txs s) /\
  buyer r' = buyer r /\ seller r' = seller r /\ amount r' = amount r /\
  createdAt r' = createdAt r /\ deliveryDeadline r' = deliveryDeadline r /\
  itemDescription r' = itemDescription r /\
  (buyerConfirmed r = true -> buyerConfirmed r' = true) /\
  (sellerConfirmed r = true -> sellerConfirmed r' = true).
Proof.
  intros Hid r r'. subst r r'.
  pose proof (run_next txs s).
  destruct (run_terms txs s id Hid) as (Ht & Hb & Hsl). unfold same_terms in Ht.
  split; [lia|]. tauto.
Qed.

Lemma escrow_terms_are_final_witness :
  1 < nextEscrowId one_pending /\
  amount (escrow_at 1 (run [(by_ bob 1500, ConfirmDelivery 1);
                            (by_ carol 1600, UpdatePlatformFee 1000);
                            (by_ alice 2000, ConfirmDelivery 1)] one_pending)) = 100 /\
  sellerConfirmed (escrow_at 1 (run [(by_ bob 1500, ConfirmDelivery 1)] one_pending))
    = true /\
  sellerConfirmed (escrow_at 1 (run [(by_ bob 2000, RaiseDispute 1)]
                     (run [(by_ bob 1500, ConfirmDelivery 1)] one_pending))) = true.
Proof.
  assert (H1 : 1 < nextEscrowId one_pending) by (vm_compute; reflexivity).
  split; [exact H1|].
  split.
  - exact (proj1 (proj2 (proj2 (proj2
      (escrow_terms_are_final one_pending
         [(by_ bob 1500, ConfirmDelivery 1);
          (by_ carol 1600, UpdatePlatformFee 1000);
          (by_ alice 2000, ConfirmDelivery 1)] 1 H1))))).
  - assert (H2 : sellerConfirmed
                   (escrow_at 1 (run [(by_ bob 1500, ConfirmDelivery 1)] one_pending))
                 = true) by (vm_compute; reflexivity).
    split; [exact H2|].
    assert (H3 : 1 < nextEscrowId (run [(by_ bob 1500, ConfirmDelivery 1)] one_pending))
      by (vm_compute; reflexivity).
    exact (proj2 (proj2 (proj2 (proj2 (proj2 (proj2 (proj2 (proj2
      (escrow_terms_are_final _ [(by_ bob 2000, RaiseDispute 1)] 1 H3)))))))) H2).
Defined.

(** X6. The owner is the deployer for good: no call changes it, so after
    any transactions every owner-only function still rejects every other
    caller as Forbidden. *)
Theorem owner_is_fixed (deployer wallet : address) (funds : N)
    (txs : list (Env * Call)) (e : Env) :
  let s := run txs (constructor_ deployer wallet funds) in
  owner s = deployer /\
  (msg_sender e <> deployer ->
     (forall n, fails_as (updatePlatformFee e n s) Forbidden) /\
     (forall a, fails_as (updatePlatformWallet e a s) Forbidden) /\
     (forall id b, fails_as (resolveDispute e id b s) Forbidden) /\
     fails_as (emergencyWithdraw e s) Forbidden).
Proof.
  intros s.
  assert (Ho : owner s = deployer) by (subst s; by rewrite run_owner).
  split; [exact Ho|]. intros Hne. rewrite <- Ho in Hne.
  repeat split; intros; run_entry; solve_fails.
Qed.

Lemma owner_is_fixed_witness :
  msg_sender (by_ mallory 9000) <> carol /\
  owner swept = carol /\
  fails_as (emergencyWithdraw (by_ mallory 9000) swept) Forbidden /\
  fails_as (updatePlatformFee (by_ mallory 9000) 0 swept) Forbidden.
Proof.
  assert (Hne : msg_sender (by_ mallory 9000) <> carol) by (vm_compute; discriminate).
  destruct (owner_is_fixed carol treasury 0
              [(by_ alice 1000, CreateEscrow 100 bob "book" 7);
               (by_ carol 2000, EmergencyWithdraw)] (by_ mallory 9000))
    as (Ho & Hforb).
  destruct (Hforb Hne) as (Hfee & _ & _ & Hw).
  split; [exact Hne | split; [exact Ho | split; [exact Hw | exact (Hfee 0)]]].
Defined.

(** ** Fee and wallet administration *)

(** What a completion through either entry point leaves. *)
Lemma delivered_shape e id s u s' :
  confirmDelivery e id s = Ok u s' \/ resolveDispute e id false s = Ok u s' ->
  status (escrow_at id s') = DELIVERED ->
  sent s' = sent s ++ settlement s (escrow_at id s) /\
  fee_of s (escrow_at id s) <= amount (escrow_at id s) /\
  balance s' + amount (escrow_at id s) = balance s.
Proof.
  intros [H|H] Hst.
  - destruct (confirmDelivery_inv _ _ _ _ _ H) as (Hid & Hp & Hwho).
    rewrite confirmDelivery_eq in H by assumption.
    destruct (buyerConfirmed (escrow_at id (confirmed e id s))) eqn:Hbc.
    + apply completeEscrow_inv in H. destruct H as (-> & _ & Hfee & Hbal & _).
      rewrite fee_of_confirmed, amount_confirmed in *.
      cbn. rewrite settlement_confirmed, amount_confirmed.
      change (balance (confirmed e id s)) with (balance s) in *.
      repeat split; try assumption. lia.
    + injection H as _ <-. rewrite escrow_at_confirmed in Hst.
      case_decide; [|done].
      destruct (msg_sender e =? _); cbn in Hst; congruence.
  - apply resolveDispute_inv in H. destruct H as (_ & _ & _ & Hbal & -> & Hfee).
    cbn. repeat split; try assumption. lia.
Qed.

(** X7. [updatePlatformFee] first checks the caller, then the value: anyone
    but the owner is rejected as Forbidden whatever the fee, the owner is
    rejected with InvalidInput above 1000 basis points, and up to 1000 the
    call goes through, setting the fee and touching nothing else. *)
Theorem updatePlatformFee_cap (e : Env) (newFee : N) (s : Contract) :
  (msg_sender e <> owner s -> fails_as (updatePlatformFee e newFee s) Forbidden) /\
  (msg_sender e = owner s -> 1000 < newFee ->
     fails_as (updatePlatformFee e newFee s) InvalidInput) /\
  (msg_sender e = owner s -> newFee <= 1000 ->
     exists s', updatePlatformFee e newFee s = Ok tt s' /\
       platformFee s' = newFee /\
       escrows s' = escrows s /\ nextEscrowId s' = nextEscrowId s /\
       platformWallet s' = platformWallet s /\ owner s' = owner s /\
       balance s' = balance s /\ events s' = events s /\ sent s' = sent s).
Proof.
  repeat split.
  - intros Hne. run_entry; solve_fails.
  - intros Ho Hbig. run_entry; solve_fails.
  - intros Ho Hok. exists (set_platformFee newFee s). run_entry. repeat split.
Qed.

Lemma updatePlatformFee_cap_witness :
  fails_as (updatePlatformFee (by_ alice 1500) 1001 one_pending) Forbidden /\
  fails_as (updatePlatformFee (by_ carol 1500) 1001 one_pending) InvalidInput /\
  exists s', updatePlatformFee (by_ carol 1500) 1000 one_pending = Ok tt s' /\
             platformFee s' = 1000 /\ balance s' = balance one_pending.
Proof.
  destruct (updatePlatformFee_cap (by_ alice 1500) 1001 one_pending) as (Hf & _ & _).
  destruct (updatePlatformFee_cap (by_ carol 1500) 1001 one_pending) as (_ & Hi & _).
  destruct (updatePlatformFee_cap (by_ carol 1500) 1000 one_pending) as (_ & _ & Hok).
  split; [apply Hf; vm_compute; discriminate|].
  split; [apply Hi; vm_compute; reflexivity|].
  destruct Hok as (s' & H1 & H2 & _ & _ & _ & _ & H3 & _);
    [vm_compute; reflexivity | vm_compute; discriminate |].
  exists s'. split; [exact H1 | split; [exact H2 | exact H3]].
Defined.

(** X8. The fee never exceeds 10%: in every reachable state the fee rate
    is at most 1000 basis points, so whenever an escrow completes the
    seller is paid at least nine tenths of the amount (and the subtraction
    in the settlement cannot underflow). *)
Theorem seller_gets_nine_tenths (e : Env) (escrowId : N) (s : Contract) (u : unit)
    (s' : Contract) :
  reachable s ->
  confirmDelivery e escrowId s = Ok u s' \/
  resolveDispute e escrowId false s = Ok u s' ->
  status (escrow_at escrowId s') = DELIVERED ->
  platformFee s <= 1000 /\
  exists paid,
    last (sent s') = Some (seller (escrow_at escrowId s), paid) /\
    9 * amount (escrow_at escrowId s) <= 10 * paid /\
    paid <= amount (escrow_at escrowId s).
Proof.
  intros Hs Hrun Hst.
  pose proof (wf_fee s (reachable_wf s Hs)) as Hfee.
  destruct (delivered_shape _ _ _ _ _ Hrun Hst) as (Hsent & Hle & _).
  split; [exact Hfee|].
  exists (amount (escrow_at escrowId s) - fee_of s (escrow_at escrowId s)).
  split.
  - rewrite Hsent. unfold settlement. rewrite app_assoc. apply last_snoc.
  - assert (H10 : 10 * fee_of s (escrow_at escrowId s) <= amount (escrow_at escrowId s)).
    { unfold fee_of.
      set (a := amount (escrow_at escrowId s)) in *.
      set (p := platformFee s) in *.
      assert (Hq : a * p / 10000 <= a * 1000 / 10000)
        by (apply N.Div0.div_le_mono; nia).
      pose proof (N.Div0.mul_div_le (a * 1000) 10000) as Hd.
      set (q := a * 1000 / 10000) in *. set (q' := a * p / 10000) in *.
      clearbody q q'. lia. }
    set (f := fee_of s (escrow_at escrowId s)) in *. clearbody f. lia.
Qed.

Lemma seller_gets_nine_tenths_witness :
  reachable one_pending /\
  confirmDelivery (by_ alice 2000) 1 one_pending = Ok tt one_delivered /\
  status (escrow_at 1 one_delivered) = DELIVERED /\
  exists paid, last (sent one_delivered) = Some (bob, paid) /\ 9 * 100 <= 10 * paid.
Proof.
  assert (Hr : reachable one_pending) by (apply reachable_run, reach_deploy).
  assert (H1 : confirmDelivery (by_ alice 2000) 1 one_pending = Ok tt one_delivered)
    by (vm_compute; reflexivity).
  assert (H2 : status (escrow_at 1 one_delivered) = DELIVERED)
    by (vm_compute; reflexivity).
  destruct (seller_gets_nine_tenths _ _ _ _ _ Hr (or_introl H1) H2)
    as (_ & paid & Hl & Hp & _).
  split; [exact Hr | split; [exact H1 | split; [exact H2 |]]].
  exists paid. split; [exact Hl | exact Hp].
Defined.

(** X9. [updatePlatformWallet] first checks the caller, then the address:
    anyone but the owner is rejected as Forbidden, the owner is rejected
    with InvalidInput for the null address, and otherwise the call goes
    through, setting the wallet and touching nothing else. *)
Theorem updatePlatformWallet_guards (e : Env) (newWallet : address) (s : Contract) :
  (msg_sender e <> owner s ->
     fails_as (updatePlatformWallet e newWallet s) Forbidden) /\
  (msg_sender e = owner s -> newWallet = 0 ->
     fails_as (updatePlatformWallet e newWallet s) InvalidInput) /\
  (msg_sender e = owner s -> newWallet <> 0 ->
     exists s', updatePlatformWallet e newWallet s = Ok tt s' /\
       platformWallet s' = newWallet /\
       escrows s' = escrows s /\ nextEscrowId s' = nextEscrowId s /\
       platformFee s' = platformFee s /\ owner s' = owner s /\
       balance s' = balance s /\ events s' = events s /\ sent s' = sent s).
Proof.
  repeat split.
  - intros Hne. run_entry; solve_fails.
  - intros Ho Hz. run_entry; solve_fails.
  - intros Ho Hok. exists (set_platformWallet newWallet s). run_entry. repeat split.
Qed.

Lemma updatePlatformWallet_guards_witness :
  fails_as (updatePlatformWallet (by_ bob 1500) bob one_pending) Forbidden /\
  fails_as (updatePlatformWallet (by_ carol 1500) 0 one_pending) InvalidInput /\
  exists s', updatePlatformWallet (by_ carol 1500) mallory one_pending = Ok tt s' /\
             platformWallet s' = mallory.
Proof.
  destruct (updatePlatformWallet_guards (by_ bob 1500) bob one_pending) as (Hf & _ & _).
  destruct (updatePlatformWallet_guards (by_ carol 1500) 0 one_pending) as (_ & Hi & _).
  destruct (updatePlatformWallet_guards (by_ carol 1500) mallory one_pending)
    as (_ & _ & Hok).
  split; [apply Hf; vm_compute; discriminate|].
  split; [apply Hi; vm_compute; reflexivity|].
  destruct Hok as (s' & H1 & H2 & _);
    [vm_compute; reflexivity | vm_compute; discriminate |].
  exists s'. split; [exact H1 | exact H2].
Defined.

Lemma step_wallet_nonzero e c s s' :
  step e s c s' -> platformWallet s <> 0 -> platformWallet s' <> 0.
Proof. destruct 1; cbn; auto. Qed.

(** X10. The constructor takes any platform wallet, the null address
    included; but a contract deployed with a wallet other than the null
    address never has the null address as its wallet. *)
Theorem platformWallet_stays_nonzero (deployer wallet : address) (funds : N)
    (txs : list (Env * Call)) :
  wallet <> 0 ->
  platformWallet (run txs (constructor_ deployer wallet funds)) <> 0.
Proof.
  intros Hw.
  apply (run_invariant (fun s => platformWallet s <> 0)); [|exact Hw].
  intros e c s s' Hs Hst. by apply (step_wallet_nonzero e c s s').
Qed.

Lemma platformWallet_stays_nonzero_witness :
  treasury <> 0 /\
  platformWallet (run [(by_ carol 1500, UpdatePlatformWallet 0);
                       (by_ carol 1600, UpdatePlatformWallet mallory)] fresh) <> 0.
Proof.
  assert (H : treasury <> 0) by (vm_compute; discriminate).
  split; [exact H|].
  exact (platformWallet_stays_nonzero carol treasury 0
           [(by_ carol 1500, UpdatePlatformWallet 0);
            (by_ carol 1600, UpdatePlatformWallet mallory)] H).
Defined.

(** X11. The fee rate and the platform wallet are read when an escrow is
    settled, not when it is created: after the owner changes the rate or
    the wallet, an escrow opened before completes at the new rate, paying
    the fee to the new wallet. *)
Theorem fee_read_at_settlement (e e' : Env) (escrowId : N) (s s1 s2 : Contract)
    (u u' : unit) :
  confirmDelivery e' escrowId s1 = Ok u' s2 \/
  resolveDispute e' escrowId false s1 = Ok u' s2 ->
  status (escrow_at escrowId s2) = DELIVERED ->
  let r := escrow_at escrowId s in
  (forall newFee, updatePlatformFee e newFee s = Ok u s1 ->
     let fee := amount r * newFee / 10000 in
     sent s2 = sent s ++ (if 0 <? fee then [(platformWallet s, fee)] else [])
                      ++ [(seller r, amount r - fee)]) /\
  (forall newWallet, updatePlatformWallet e newWallet s = Ok u s1 ->
     let fee := amount r * platformFee s / 10000 in
     sent s2 = sent s ++ (if 0 <? fee then [(newWallet, fee)] else [])
                      ++ [(seller r, amount r - fee)]).
Proof.
  intros Hrun Hst r. subst r.
  destruct (delivered_shape _ _ _ _ _ Hrun Hst) as (Hsent & _).
  split.
  - intros newFee Hup.
    assert (s1 = set_platformFee newFee s) as ->
      by (run_entry; by injection Hup as _ <-).
    exact Hsent.
  - intros newWallet Hup.
    assert (s1 = set_platformWallet newWallet s) as ->
      by (run_entry; by injection Hup as _ <-).
    exact Hsent.
Qed.

Lemma fee_read_at_settlement_witness :
  let s1 := run [(by_ carol 1500, UpdatePlatformFee 1000)] one_pending in
  let s2 := run [(by_ alice 2000, ConfirmDelivery 1)] s1 in
  confirmDelivery (by_ alice 2000) 1 s1 = Ok tt s2 /\
  status (escrow_at 1 s2) = DELIVERED /\
  updatePlatformFee (by_ carol 1500) 1000 one_pending = Ok tt s1 /\
  sent s2 = [(treasury, 10); (bob, 90)].
Proof.
  intros s1 s2.
  assert (H1 : confirmDelivery (by_ alice 2000) 1 s1 = Ok tt s2)
    by (vm_compute; reflexivity).
  assert (H2 : status (escrow_at 1 s2) = DELIVERED) by (vm_compute; reflexivity).
  assert (H3 : updatePlatformFee (by_ carol 1500) 1000 one_pending = Ok tt s1)
    by (vm_compute; reflexivity).
  split; [exact H1 | split; [exact H2 | split; [exact H3 |]]].
  exact (proj1 (fee_read_at_settlement (by_ carol 1500) (by_ alice 2000) 1
                  one_pending s1 s2 tt tt (or_introl H1) H2) 1000 H3).
Defined.

(** ** Disputes *)

(** X12. On a PENDING escrow [raiseDispute] is rejected as Forbidden for
    anyone but its buyer and its seller, and goes through for either of
    them: the status becomes DISPUTED, the terms and the flags stay, no
    funds move.  From then on [confirmDelivery], [requestRefund] and
    [raiseDispute] on it are rejected with InvalidState for every caller
    at every time, the buyer after the deadline included, and
    [resolveDispute] is Forbidden to all but the owner. *)
Theorem raiseDispute_locks (e : Env) (escrowId : N) (s : Contract) :
  escrowId < nextEscrowId s ->
  status (escrow_at escrowId s) = PENDING ->
  let r := escrow_at escrowId s in
  (msg_sender e <> buyer r -> msg_sender e <> seller r ->
     fails_as (raiseDispute e escrowId s) Forbidden) /\
  (msg_sender e = buyer r \/ msg_sender e = seller r ->
     exists s', raiseDispute e escrowId s = Ok tt s' /\
       escrow_at escrowId s' = set_status DISPUTED r /\
       (forall id, id <> escrowId -> escrow_at id s' = escrow_at id s) /\
       balance s' = balance s /\ sent s' = sent s /\
       events s' = events s ++ [DisputeRaised escrowId (msg_sender e)] /\
       (forall e',
          fails_as (confirmDelivery e' escrowId s') InvalidState /\
          fails_as (requestRefund e' escrowId s') InvalidState /\
          fails_as (raiseDispute e' escrowId s') InvalidState /\
          (msg_sender e' <> owner s ->
             forall b, fails_as (resolveDispute e' escrowId b s') Forbidden))).
Proof.
  intros Hid Hst r. subst r. split.
  - intros Hb Hsl. run_entry; solve_fails.
  - intros Hwho. exists (disputed e escrowId s).
    assert (Hrec : escrow_at escrowId (disputed e escrowId s) =
                   set_status DISPUTED (escrow_at escrowId s)).
    { rewrite escrow_at_disputed. by case_decide. }
    split; [destruct Hwho; run_entry; reflexivity|].
    split; [exact Hrec|].
    split; [intros id Hne; rewrite escrow_at_disputed; by case_decide|].
    do 3 (split; [reflexivity|]).
    intros e'.
    assert (Hst' : status (escrow_at escrowId (disputed e escrowId s)) <> PENDING)
      by (rewrite Hrec; discriminate).
    change (nextEscrowId s) with (nextEscrowId (disputed e escrowId s)) in Hid.
    change (owner s) with (owner (disputed e escrowId s)).
    generalize dependent (disputed e escrowId s). intros s' Hid' _ Hst'.
    repeat split; run_entry; solve_fails.
Qed.

Lemma raiseDispute_locks_witness :
  1 < nextEscrowId one_pending /\
  status (escrow_at 1 one_pending) = PENDING /\
  fails_as (raiseDispute (by_ mallory 2000) 1 one_pending) Forbidden /\
  exists s', raiseDispute (by_ bob 2000) 1 one_pending = Ok tt s' /\
    status (escrow_at 1 s') = DISPUTED /\ balance s' = 100 /\
    fails_as (requestRefund (by_ alice 700000) 1 s') InvalidState.
Proof.
  assert (H1 : 1 < nextEscrowId one_pending) by (vm_compute; reflexivity).
  assert (H2 : status (escrow_at 1 one_pending) = PENDING) by (vm_compute; reflexivity).
  split; [exact H1 | split; [exact H2 |]].
  split.
  - apply (proj1 (raiseDispute_locks (by_ mallory 2000) 1 one_pending H1 H2));
      vm_compute; discriminate.
  - destruct (proj2 (raiseDispute_locks (by_ bob 2000) 1 one_pending H1 H2))
      as (s' & Hrun & Hrec & _ & Hbal & _ & _ & Hlock).
    { right. vm_compute. reflexivity. }
    exists s'. split; [exact Hrun|]. split; [by rewrite Hrec|].
    split; [exact Hbal|]. exact (proj1 (proj2 (Hlock (by_ alice 700000)))).
Defined.

(** ** Deadlines *)

(** X13. [isDeliveryOverdue] rejects an id at or beyond the counter as
    NotFound and otherwise tells whether the block time is strictly after
    the deadline; for the buyer of a PENDING escrow it answers false
    exactly when [requestRefund] would be rejected as TooEarly. *)
Theorem isDeliveryOverdue_matches_refund (e : Env) (escrowId : N) (s : Contract) :
  (nextEscrowId s <= escrowId ->
     fails_as (isDeliveryOverdue e escrowId s) NotFound) /\
  (escrowId < nextEscrowId s ->
     isDeliveryOverdue e escrowId s =
       Ok (deliveryDeadline (escrow_at escrowId s) <? block_timestamp e) s /\
     (status (escrow_at escrowId s) = PENDING ->
      msg_sender e = buyer (escrow_at escrowId s) ->
        (isDeliveryOverdue e escrowId s = Ok false s <->
         fails_as (requestRefund e escrowId s) TooEarly))).
Proof.
  split.
  - intros Hid. run_entry; solve_fails.
  - intros Hid.
    assert (Hv : isDeliveryOverdue e escrowId s =
                 Ok (deliveryDeadline (escrow_at escrowId s) <? block_timestamp e) s)
      by (run_entry; reflexivity).
    split; [exact Hv|]. intros Hst Hb. rewrite Hv. split.
    + intros Hf. injection Hf as Hf. apply N.ltb_ge in Hf.
      run_entry; solve_fails.
    + intros (reason & Hrun & Hk).
      destruct (deliveryDeadline (escrow_at escrowId s) <? block_timestamp e) eqn:Hlt;
        [|reflexivity].
      exfalso. apply N.ltb_lt in Hlt.
      destruct (requestRefund e escrowId s) as [u s'|f] eqn:Hr.
      * discriminate.
      * injection Hrun as ->. revert Hr. run_entry; intros Hr;
          injection Hr as <-; cbn in Hk; discriminate.
Qed.

Lemma isDeliveryOverdue_matches_refund_witness :
  1 < nextEscrowId one_pending /\
  status (escrow_at 1 one_pending) = PENDING /\
  msg_sender (by_ alice 605800) = buyer (escrow_at 1 one_pending) /\
  isDeliveryOverdue (by_ alice 605800) 1 one_pending = Ok false one_pending /\
  fails_as (requestRefund (by_ alice 605800) 1 one_pending) TooEarly /\
  isDeliveryOverdue (by_ alice 605801) 1 one_pending = Ok true one_pending /\
  fails_as (isDeliveryOverdue (by_ alice 605801) 2 one_pending) NotFound.
Proof.
  assert (H1 : 1 < nextEscrowId one_pending) by (vm_compute; reflexivity).
  assert (H2 : status (escrow_at 1 one_pending) = PENDING) by (vm_compute; reflexivity).
  assert (H3 : msg_sender (by_ alice 605800) = buyer (escrow_at 1 one_pending))
    by (vm_compute; reflexivity).
  destruct (proj2 (isDeliveryOverdue_matches_refund (by_ alice 605800) 1 one_pending) H1)
    as (Hv & Hiff).
  destruct (proj2 (isDeliveryOverdue_matches_refund (by_ alice 605801) 1 one_pending) H1)
    as (Hv' & _).
  split; [exact H1 | split; [exact H2 | split; [exact H3 |]]].
  split; [exact Hv|].
  split; [apply (Hiff H2 H3); exact Hv|].
  split; [exact Hv'|].
  apply (proj1 (isDeliveryOverdue_matches_refund (by_ alice 605801) 2 one_pending)).
  vm_compute; discriminate.
Defined.

(** X14. Every created escrow keeps a deadline between one and 365 days
    after its creation time; so up to one day after creation it is never
    overdue and its buyer's [requestRefund] is rejected as TooEarly while
    it is PENDING. *)
Theorem deadline_within_a_year (s : Contract) (escrowId : N) (e : Env) :
  reachable s ->
  created s escrowId ->
  let r := escrow_at escrowId s in
  createdAt r + 86400 <= deliveryDeadline r /\
  deliveryDeadline r <= createdAt r + 365 * 86400 /\
  (block_timestamp e <= createdAt r + 86400 ->
     isDeliveryOverdue e escrowId s = Ok false s /\
     (status r = PENDING -> msg_sender e = buyer r ->
        fails_as (requestRefund e escrowId s) TooEarly)).
Proof.
  intros Hs Hc r. subst r.
  destruct (wt_deadline s (reachable_wf_terms s Hs) escrowId Hc) as (Hlo & Hhi & _).
  unfold days in *. destruct Hc as [_ Hid].
  split; [exact Hlo | split; [exact Hhi |]].
  intros Ht. split.
  - run_entry.
    replace (deliveryDeadline (escrow_at escrowId s) <? block_timestamp e)
      with false by (symmetry; apply N.ltb_ge; lia).
    reflexivity.
  - intros Hst Hb. run_entry; solve_fails.
Qed.

Lemma deadline_within_a_year_witness :
  reachable two_pending /\
  created two_pending 2 /\
  createdAt (escrow_at 2 two_pending) + 86400 <= deliveryDeadline (escrow_at 2 two_pending) /\
  isDeliveryOverdue (by_ carol 91400) 2 two_pending = Ok false two_pending /\
  fails_as (requestRefund (by_ carol 91400) 2 two_pending) TooEarly.
Proof.
  assert (Hr : reachable two_pending)
    by (apply reachable_run, reachable_run, reach_deploy).
  assert (Hc : created two_pending 2)
    by (split; [vm_compute; discriminate | vm_compute; reflexivity]).
  destruct (deadline_within_a_year two_pending 2 (by_ carol 91400) Hr Hc)
    as (Hlo & _ & Hearly).
  destruct Hearly as (Hv & Hrf); [vm_compute; discriminate|].
  split; [exact Hr | split; [exact Hc | split; [exact Hlo | split; [exact Hv |]]]].
  apply Hrf; vm_compute; reflexivity.
Defined.

(** ** Solvency *)

Lemma sum_list_app l l' : sum_list (l ++ l') = sum_list l + sum_list l'.
Proof. unfold sum_list. induction l as [|x l IH]; cbn; [done|]. rewrite IH. lia. Qed.

Lemma sum_map_ext (f g : N -> N) lo hi :
  (forall i, lo <= i < hi -> g i = f i) ->
  sum_list (map g (range lo hi)) = sum_list (map f (range lo hi)).
Proof.
  intros H. f_equal. apply map_ext_in. intros i Hi. apply H. by apply In_range.
Qed.

Lemma sum_map_change (f g : N -> N) lo hi id :
  (forall i, i <> id -> g i = f i) ->
  lo <= id < hi ->
  sum_list (map g (range lo hi)) + f id = sum_list (map f (range lo hi)) + g id.
Proof.
  intros H Hid. rewrite (range_split lo hi id) by assumption.
  rewrite !map_app, !sum_list_app. cbn [map].
  change (sum_list (?x :: ?l)) with (x + sum_list l).
  rewrite (sum_map_ext f g lo id) by (intros; apply H; lia).
  rewrite (sum_map_ext f g (id + 1) hi) by (intros; apply H; lia).
  lia.
Qed.

Lemma sum_map_le (f : N -> N) lo hi id :
  lo <= id < hi -> f id <= sum_list (map f (range lo hi)).
Proof.
  intros Hid. rewrite (range_split lo hi id) by assumption.
  rewrite map_app, sum_list_app. cbn [map].
  change (sum_list (?x :: ?l)) with (x + sum_list l). lia.
Qed.

(** One record changes, the counter stays: the total moves by the
    difference of what that escrow holds (nothing for slot 0). *)
Lemma open_total_change s s' id :
  nextEscrowId s' = nextEscrowId s ->
  id < nextEscrowId s ->
  (forall i, i <> id -> escrow_at i s' = escrow_at i s) ->
  (1 <= id -> open_total s' + open_amount s id = open_total s + open_amount s' id) /\
  (id = 0 -> open_total s' = open_total s).
Proof.
  intros Hn Hid Hrec. unfold open_total. rewrite Hn.
  assert (Hext : forall i, i <> id -> open_amount s' i = open_amount s i)
    by (intros i Hi; unfold open_amount; by rewrite Hrec).
  split.
  - intros H1. apply sum_map_change; [exact Hext | lia].
  - intros ->. apply sum_map_ext. intros i Hi. apply Hext. lia.
Qed.

Lemma open_amount_pending s id :
  final (status (escrow_at id s)) = false -> open_amount s id = amount (escrow_at id s).
Proof. unfold open_amount. by intros ->. Qed.

(** Apart from the owner's withdrawal, every step moves the balance by
    exactly what it moves the total held. *)
Lemma step_balance e c s s' :
  step e s c s' -> is_withdraw c = false -> wf s -> wf_terms s ->
  balance s' + open_total s = balance s + open_total s'.
Proof.
  intros Hst Hc Hwf Hwt.
  pose proof (wf_next s Hwf) as Hn. pose proof (wt_zero s Hwt) as Hz.
  assert (Hone : forall s1 id r1,
            nextEscrowId s1 = nextEscrowId s -> id < nextEscrowId s ->
            escrow_at id s1 = r1 ->
            (forall i, i <> id -> escrow_at i s1 = escrow_at i s) ->
            amount r1 = amount (escrow_at id s) ->
            (final (status r1) = final (status (escrow_at id s)) ->
               open_total s1 = open_total s) /\
            (final (status r1) = true -> final (status (escrow_at id s)) = false ->
               open_total s1 + amount (escrow_at id s) = open_total s)).
  { intros s1 id r1 Hn1 Hid Hr1 Hoth Ham.
    destruct (open_total_change s s1 id Hn1 Hid Hoth) as (Hpos & Hzero).
    unfold open_amount in Hpos. rewrite Hr1, Ham in Hpos.
    split.
    - intros Hf. rewrite Hf in Hpos.
      destruct (N.eq_dec id 0) as [->|Hne]; [by apply Hzero|].
      specialize (Hpos ltac:(lia)). lia.
    - intros Hf1 Hf0. rewrite Hf1, Hf0 in Hpos.
      destruct (N.eq_dec id 0) as [->|Hne].
      + rewrite Hz. rewrite Hzero by reflexivity. lia.
      + specialize (Hpos ltac:(lia)). lia. }
  destruct Hst; try discriminate Hc.
  - unfold open_total at 2.
    change (nextEscrowId (opened e v sl descr d s)) with (nextEscrowId s + 1).
    rewrite range_snoc by lia. rewrite map_app, sum_list_app.
    rewrite (sum_map_ext (open_amount s)).
    + cbn [map]. unfold open_amount at 2. rewrite escrow_at_opened.
      case_decide; [|done]. cbn. unfold open_total. lia.
    + intros i Hi. unfold open_amount. rewrite escrow_at_opened.
      case_decide; [lia | reflexivity].
  - destruct (Hone (confirmed e id s) id _ eq_refl H eq_refl) as (Hsame & _).
    + intros i Hi. rewrite escrow_at_confirmed. by case_decide.
    + by rewrite amount_confirmed.
    + rewrite Hsame; [reflexivity|].
      rewrite escrow_at_confirmed. case_decide; [|done].
      by destruct (msg_sender e =? _).
  - destruct (Hone (settled id (confirmed e id s)) id _ eq_refl H eq_refl) as (_ & Hpay).
    + intros i Hi. rewrite escrow_at_settled. case_decide; [done|].
      rewrite escrow_at_confirmed. by case_decide.
    + rewrite escrow_at_settled. case_decide; [|done]. cbn. apply amount_confirmed.
    + rewrite <- Hpay.
      * cbn. rewrite amount_confirmed. lia.
      * rewrite escrow_at_settled. by case_decide.
      * by rewrite H0.
  - destruct (Hone (refunded id s) id _ eq_refl H eq_refl) as (_ & Hpay).
    + intros i Hi. rewrite escrow_at_refunded. by case_decide.
    + rewrite escrow_at_refunded. by case_decide.
    + rewrite <- Hpay.
      * cbn. lia.
      * rewrite escrow_at_refunded. by case_decide.
      * by rewrite H0.
  - destruct (Hone (disputed e id s) id _ eq_refl H eq_refl) as (Hsame & _).
    + intros i Hi. rewrite escrow_at_disputed. by case_decide.
    + rewrite escrow_at_disputed. by case_decide.
    + rewrite Hsame; [reflexivity|].
      rewrite escrow_at_disputed. case_decide; [|done]. cbn. by rewrite H0.
  - destruct (Hone (refunded id s) id _ eq_refl H0 eq_refl) as (_ & Hpay).
    + intros i Hi. rewrite escrow_at_refunded. by case_decide.
    + rewrite escrow_at_refunded. by case_decide.
    + rewrite <- Hpay.
      * cbn. lia.
      * rewrite escrow_at_refunded. by case_decide.
      * by rewrite H1.
  - destruct (Hone (settled id s) id _ eq_refl H0 eq_refl) as (_ & Hpay).
    + intros i Hi. rewrite escrow_at_settled. by case_decide.
    + rewrite escrow_at_settled. by case_decide.
    + rewrite <- Hpay.
      * cbn. lia.
      * rewrite escrow_at_settled. by case_decide.
      * by rewrite H1.
  - reflexivity.
  - reflexivity.
Qed.

Lemma run_balance txs s k :
  reachable s -> balance s = k + open_total s -> no_withdraw txs = true ->
  balance (run txs s) = k + open_total (run txs s).
Proof.
  revert s. induction txs as [|[e c] txs IH]; intros s Hs Hb Hnw; cbn; [exact Hb|].
  cbn in Hnw. apply andb_true_iff in Hnw. destruct Hnw as [Hc Hnw].
  apply negb_true_iff in Hc.
  apply IH; [by constructor | | exact Hnw].
  destruct (commit_step e c s) as [->|Hst]; [exact Hb|].
  pose proof (step_balance e c s _ Hst Hc (reachable_wf s Hs) (reachable_wf_terms s Hs)).
  lia.
Qed.

Lemma open_total_constructor d w f : open_total (constructor_ d w f) = 0.
Proof. reflexivity. Qed.

Lemma open_amount_covered s k id :
  balance s = k + open_total s -> created s id ->
  final (status (escrow_at id s)) = false ->
  amount (escrow_at id s) <= balance s.
Proof.
  intros Hb Hc Hf. rewrite <- (open_amount_pending s id Hf), Hb.
  pose proof (sum_map_le (open_amount s) 1 (nextEscrowId s) id Hc) as Hle.
  unfold open_total. lia.
Qed.

Lemma history_balance acts s k :
  wf s -> wf_terms s -> balance s = k + open_total s ->
  no_withdrawal acts = true ->
  balance (history acts s) = k + forced acts + open_total (history acts s).
Proof.
  revert s k. induction acts as [|[e c|v] acts IH]; intros s k Hwf Hwt Hb Hnw.
  - cbn. lia.
  - cbn in Hnw. apply andb_true_iff in Hnw. destruct Hnw as [Hc Hnw].
    apply negb_true_iff in Hc.
    cbn [history forced].
    apply IH; [by apply act_wf | by apply act_wf_terms | | exact Hnw].
    cbn [act]. destruct (commit_step e c s) as [->|Hst]; [exact Hb|].
    pose proof (step_balance e c s _ Hst Hc Hwf Hwt). lia.
  - cbn in Hnw. cbn [history forced].
    rewrite (IH (act (ForcePay v) s) (k + v));
      [lia | by apply act_wf | by apply act_wf_terms | | exact Hnw].
    cbn [act]. change (open_total (set_balance (balance s + v) s)) with (open_total s).
    cbn. lia.
Qed.

(** X15. As long as [emergencyWithdraw] is not used, the balance that
    [getContractBalance] reports is the funds the contract had when it was
    deployed, plus whatever was forced into it since, plus the amounts of
    all escrows that are not settled yet: the open escrows, together and
    each of them, are covered by the balance. *)
Theorem balance_accounts_for_open_escrows (deployer wallet : address) (funds : N)
    (acts : list Action) :
  no_withdrawal acts = true ->
  let s := history acts (constructor_ deployer wallet funds) in
  getContractBalance s = Ok (funds + forced acts + open_total s) s /\
  open_total s <= balance s /\
  (forall id, created s id -> final (status (escrow_at id s)) = false ->
     amount (escrow_at id s) <= balance s).
Proof.
  intros Hnw s.
  assert (Hb : balance s = funds + forced acts + open_total s).
  { subst s.
    apply history_balance;
      [apply wf_constructor | apply wf_terms_constructor | | exact Hnw].
    rewrite open_total_constructor. cbn. lia. }
  split; [|split].
  - unfold getContractBalance, gets. by rewrite Hb.
  - lia.
  - intros id Hc Hf. by apply (open_amount_covered s (funds + forced acts)).
Qed.

Lemma balance_accounts_for_open_escrows_witness :
  no_withdrawal topped_up_acts = true /\
  forced topped_up_acts = 5 /\
  open_total topped_up = 40 /\
  getContractBalance topped_up = Ok 45 topped_up.
Proof.
  assert (H : no_withdrawal topped_up_acts = true) by reflexivity.
  split; [exact H|].
  split; [reflexivity|].
  split; [vm_compute; reflexivity|].
  exact (proj1 (balance_accounts_for_open_escrows carol treasury 0 topped_up_acts H)).
Defined.

Lemma fee_within_amount s r : platformFee s <= 1000 -> fee_of s r <= amount r.
Proof.
  intros H. unfold fee_of. apply N.Div0.div_le_upper_bound. nia.
Qed.

Lemma confirmed_by_buyer e id s :
  msg_sender e = buyer (escrow_at id s) ->
  escrow_at id (confirmed e id s) = set_buyerConfirmed true (escrow_at id s).
Proof.
  intros Hb. rewrite escrow_at_confirmed. case_decide; [|done].
  by replace (msg_sender e =? buyer (escrow_at id s)) with true
    by (symmetry; by apply N.eqb_eq).
Qed.

(** X16. As long as [emergencyWithdraw] is not used, a PENDING escrow can
    always be settled as far as the contract's funds go: the buyer's
    confirmation completes it whenever the platform wallet and the seller
    accept their payments, and after the deadline the buyer's refund goes
    through whenever the buyer's account accepts the payment. *)
Theorem open_escrow_can_be_settled (deployer wallet : address) (funds : N)
    (txs : list (Env * Call)) (escrowId : N) (e : Env) :
  no_withdraw txs = true ->
  let s := run txs (constructor_ deployer wallet funds) in
  let r := escrow_at escrowId s in
  created s escrowId ->
  status r = PENDING ->
  msg_sender e = buyer r ->
  (amount r * platformFee s <= uint256_max ->
   receives e (platformWallet s) = true -> receives e (seller r) = true ->
     exists s', confirmDelivery e escrowId s = Ok tt s' /\
                status (escrow_at escrowId s') = DELIVERED) /\
  (deliveryDeadline r < block_timestamp e -> receives e (buyer r) = true ->
     exists s', requestRefund e escrowId s = Ok tt s' /\
                status (escrow_at escrowId s') = REFUNDED).
Proof.
  intros Hnw s r Hc Hst Hb. subst r.
  assert (Hs : reachable s) by (subst s; apply reachable_run, reach_deploy).
  assert (Hbal : amount (escrow_at escrowId s) <= balance s).
  { apply (open_amount_covered s funds); [| exact Hc | by rewrite Hst].
    subst s. apply run_balance; [apply reach_deploy | | exact Hnw].
    rewrite open_total_constructor. cbn. lia. }
  clearbody s. destruct Hc as [Hc1 Hid].
  split.
  - intros Hmul Hw Hsl. exists (settled escrowId (confirmed e escrowId s)).
    pose proof (confirmed_by_buyer e escrowId s Hb) as Hrec.
    split.
    + rewrite confirmDelivery_eq by auto. rewrite Hrec. cbn.
      apply completeEscrow_ok; rewrite ?fee_of_confirmed, ?Hrec; cbn;
        try assumption; auto.
      apply fee_within_amount, (wf_fee s (reachable_wf s Hs)).
    + rewrite escrow_at_settled. by case_decide.
  - intros Hlate Hrcv. exists (refunded escrowId s).
    split; [by apply requestRefund_ok|].
    rewrite escrow_at_refunded. by case_decide.
Qed.

Lemma open_escrow_can_be_settled_witness :
  no_withdraw [(by_ alice 1000, CreateEscrow 100 bob "book" 7);
               (by_ carol 5000, CreateEscrow 40 bob "lamp" 1);
               (by_ alice 6000, ConfirmDelivery 1)] = true /\
  created (run [(by_ alice 6000, ConfirmDelivery 1)] two_pending) 2 /\
  exists s', confirmDelivery (by_ carol 7000) 2
               (run [(by_ alice 6000, ConfirmDelivery 1)] two_pending) = Ok tt s' /\
             status (escrow_at 2 s') = DELIVERED.
Proof.
  assert (H : no_withdraw [(by_ alice 1000, CreateEscrow 100 bob "book" 7);
                           (by_ carol 5000, CreateEscrow 40 bob "lamp" 1);
                           (by_ alice 6000, ConfirmDelivery 1)] = true)
    by reflexivity.
  assert (Hc : created (run [(by_ alice 6000, ConfirmDelivery 1)] two_pending) 2)
    by (split; [vm_compute; discriminate | vm_compute; reflexivity]).
  split; [exact H | split; [exact Hc |]].
  destruct (open_escrow_can_be_settled carol treasury 0 _ 2 (by_ carol 7000) H Hc)
    as (Hconf & _); try (vm_compute; reflexivity).
  apply Hconf; vm_compute; (reflexivity || discriminate).
Defined.

(** ** After the owner's withdrawal *)

(** X17. [emergencyWithdraw] leaves the contract with no funds while the
    escrows stay as they were, so right after it nothing can be paid out:
    for every created escrow that is not settled, [requestRefund] and
    [resolveDispute] revert whoever calls, and so does the buyer's
    [confirmDelivery]. *)
Theorem emergencyWithdraw_blocks_payouts (s : Contract) (e : Env) (u : unit)
    (s' : Contract) :
  reachable s ->
  emergencyWithdraw e s = Ok u s' ->
  balance s' = 0 /\
  escrows s' = escrows s /\
  (forall e' id,
     created s' id ->
     final (status (escrow_at id s')) = false ->
     is_err (requestRefund e' id s') = true /\
     (forall b, is_err (resolveDispute e' id b s') = true) /\
     (msg_sender e' = buyer (escrow_at id s') ->
        is_err (confirmDelivery e' id s') = true)).
Proof.
  intros Hs Hrun.
  assert (Hs' : reachable s').
  { assert (H : exec e EmergencyWithdraw s = Ok u s') by exact Hrun.
    rewrite <- (commit_ok _ _ _ _ H). by constructor. }
  assert (Hb : balance s' = 0).
  { revert Hrun. run_entry; intros Hrun; injection Hrun as _ <-; cbn; lia. }
  assert (He : escrows s' = escrows s).
  { revert Hrun. run_entry; intros Hrun; by injection Hrun as _ <-. }
  split; [exact Hb | split; [exact He |]].
  intros e' id Hc Hopen.
  destruct (wf_rec s' (reachable_wf s' Hs') id Hc) as (_ & _ & Hpos & _).
  repeat split.
  - destruct (requestRefund e' id s') as [u1 s1|f] eqn:H; [|reflexivity].
    apply requestRefund_inv in H. lia.
  - intros b. destruct (resolveDispute e' id b s') as [u1 s1|f] eqn:H; [|reflexivity].
    apply resolveDispute_inv in H. lia.
  - intros Hbuy.
    destruct (confirmDelivery e' id s') as [u1 s1|f] eqn:H; [|reflexivity].
    destruct (confirmDelivery_inv _ _ _ _ _ H) as (Hid & Hst & Hwho).
    rewrite confirmDelivery_eq in H by assumption.
    rewrite (confirmed_by_buyer e' id s' Hbuy) in H. cbn in H.
    apply completeEscrow_inv in H. destruct H as (_ & _ & _ & Hbal & _).
    rewrite amount_confirmed in Hbal.
    change (balance (confirmed e' id s')) with (balance s') in Hbal. lia.
Qed.

Lemma emergencyWithdraw_blocks_payouts_witness :
  reachable one_disputed /\
  exists s', emergencyWithdraw (by_ carol 4000) one_disputed = Ok tt s' /\
    balance s' = 0 /\
    created s' 1 /\
    is_err (resolveDispute (by_ carol 5000) 1 true s') = true.
Proof.
  assert (Hr : reachable one_disputed)
    by (apply reachable_run, reachable_run, reach_deploy).
  split; [exact Hr|].
  exists (run [(by_ carol 4000, EmergencyWithdraw)] one_disputed).
  assert (Hrun : emergencyWithdraw (by_ carol 4000) one_disputed
                 = Ok tt (run [(by_ carol 4000, EmergencyWithdraw)] one_disputed))
    by (vm_compute; reflexivity).
  destruct (emergencyWithdraw_blocks_payouts _ _ _ _ Hr Hrun) as (Hb & _ & Hblock).
  assert (Hc : created (run [(by_ carol 4000, EmergencyWithdraw)] one_disputed) 1)
    by (split; [vm_compute; discriminate | vm_compute; reflexivity]).
  split; [exact Hrun | split; [exact Hb | split; [exact Hc |]]].
  destruct (Hblock (by_ carol 5000) 1 Hc) as (_ & Hres & _);
    [vm_compute; reflexivity|].
  apply Hres.
Defined.

(** ** The seller's confirmation *)

(** Settlement depends on the record only through its amount and seller,
    and on the contract only through fee, wallet and balance. *)
Lemma completeEscrow_transfer e id s t u s' :
  _completeEscrow e id s = Ok u s' ->
  amount (escrow_at id t) = amount (escrow_at id s) ->
  seller (escrow_at id t) = seller (escrow_at id s) ->
  platformFee t = platformFee s ->
  platformWallet t = platformWallet s ->
  balance t = balance s ->
  sent t = sent s ->
  _completeEscrow e id t = Ok tt (settled id t) /\
  sent (settled id t) = sent s' /\ balance (settled id t) = balance s'.
Proof.
  intros H Ha Hsl Hf Hw Hb Hsent.
  apply completeEscrow_inv in H. destruct H as (-> & Hmul & Hfee & Hbal & Hwal & Hrs).
  assert (Hfo : fee_of t (escrow_at id t) = fee_of s (escrow_at id s))
    by (unfold fee_of; by rewrite Ha, Hf).
  split.
  - apply completeEscrow_ok; rewrite ?Hfo, ?Ha, ?Hsl, ?Hf, ?Hw, ?Hb; assumption.
  - cbn. unfold settlement. by rewrite Hfo, Ha, Hsl, Hw, Hb, Hsent.
Qed.

(** X18. The seller's confirmation changes nothing about settlement: on a
    PENDING escrow it always goes through, and afterwards the buyer's
    confirmation succeeds or reverts exactly as it would have without it,
    with the same payments and the same balance left. *)
Theorem seller_confirmation_is_inert (s : Contract) (eS eB : Env) (escrowId : N) :
  reachable s ->
  created s escrowId ->
  status (escrow_at escrowId s) = PENDING ->
  msg_sender eS = seller (escrow_at escrowId s) ->
  msg_sender eB = buyer (escrow_at escrowId s) ->
  exists s1,
    confirmDelivery eS escrowId s = Ok tt s1 /\
    (forall u s2, confirmDelivery eB escrowId s = Ok u s2 ->
       exists s2', confirmDelivery eB escrowId s1 = Ok tt s2' /\
         sent s2' = sent s2 /\ balance s2' = balance s2 /\
         status (escrow_at escrowId s2') = DELIVERED /\
         status (escrow_at escrowId s2) = DELIVERED) /\
    (is_err (confirmDelivery eB escrowId s) = true ->
       is_err (confirmDelivery eB escrowId s1) = true).
Proof.
  intros Hs Hc Hst HS HB.
  pose proof (reachable_wf s Hs) as Hwf.
  destruct (wf_rec s Hwf escrowId Hc) as (Hne & _ & _ & Hbc).
  specialize (Hbc Hst). destruct Hc as [_ Hid].
  set (s1 := confirmed eS escrowId s).
  assert (Hr1 : escrow_at escrowId s1 = set_sellerConfirmed true (escrow_at escrowId s)).
  { subst s1. rewrite escrow_at_confirmed. case_decide; [|done].
    by replace (msg_sender eS =? buyer (escrow_at escrowId s)) with false
      by (symmetry; apply N.eqb_neq; congruence). }
  assert (Hst1 : status (escrow_at escrowId s1) = PENDING) by (by rewrite Hr1).
  assert (HB1 : msg_sender eB = buyer (escrow_at escrowId s1)) by (by rewrite Hr1).
  assert (Hid1 : escrowId < nextEscrowId s1) by exact Hid.
  assert (Hon : forall t, status (escrow_at escrowId t) = PENDING ->
                  escrowId < nextEscrowId t ->
                  msg_sender eB = buyer (escrow_at escrowId t) ->
                  confirmDelivery eB escrowId t =
                  _completeEscrow eB escrowId (confirmed eB escrowId t)).
  { intros t Ht Hit Hbt. rewrite confirmDelivery_eq by auto.
    by rewrite (confirmed_by_buyer eB escrowId t Hbt). }
  assert (Ham : amount (escrow_at escrowId (confirmed eB escrowId s1)) =
                amount (escrow_at escrowId (confirmed eB escrowId s)))
    by (by rewrite !amount_confirmed, Hr1).
  assert (Hsl : seller (escrow_at escrowId (confirmed eB escrowId s1)) =
                seller (escrow_at escrowId (confirmed eB escrowId s))).
  { rewrite (confirmed_by_buyer eB escrowId s1 HB1),
            (confirmed_by_buyer eB escrowId s HB), Hr1. reflexivity. }
  exists s1. split.
  { rewrite confirmDelivery_eq by auto. fold s1. rewrite Hr1. cbn. by rewrite Hbc. }
  rewrite (Hon s Hst Hid HB), (Hon s1 Hst1 Hid1 HB1). split.
  - intros u s2 H2.
    destruct (completeEscrow_transfer eB escrowId _ (confirmed eB escrowId s1) _ _ H2)
      as (Hrun & Hsent & Hbal); try done.
    exists (settled escrowId (confirmed eB escrowId s1)).
    split; [exact Hrun|]. split; [exact Hsent|]. split; [exact Hbal|].
    apply completeEscrow_inv in H2. destruct H2 as (-> & _).
    rewrite !escrow_at_settled. by repeat case_decide.
  - intros Herr.
    destruct (_completeEscrow eB escrowId (confirmed eB escrowId s1))
      as [u s2|f] eqn:H1; [|reflexivity].
    destruct (completeEscrow_transfer eB escrowId _ (confirmed eB escrowId s) _ _ H1)
      as (Hrun & _); try done.
    rewrite Hrun in Herr. discriminate.
Qed.

Lemma seller_confirmation_is_inert_witness :
  reachable one_pending /\
  created one_pending 1 /\
  exists s1, confirmDelivery (by_ bob 1500) 1 one_pending = Ok tt s1 /\
    exists s2', confirmDelivery (by_ alice 2000) 1 s1 = Ok tt s2' /\
                sent s2' = sent one_delivered.
Proof.
  assert (Hr : reachable one_pending) by (apply reachable_run, reach_deploy).
  assert (Hc : created one_pending 1)
    by (split; [vm_compute; discriminate | vm_compute; reflexivity]).
  split; [exact Hr | split; [exact Hc |]].
  assert (Hp : status (escrow_at 1 one_pending) = PENDING) by (vm_compute; reflexivity).
  assert (HS : msg_sender (by_ bob 1500) = seller (escrow_at 1 one_pending))
    by (vm_compute; reflexivity).
  assert (HB : msg_sender (by_ alice 2000) = buyer (escrow_at 1 one_pending))
    by (vm_compute; reflexivity).
  destruct (seller_confirmation_is_inert one_pending (by_ bob 1500) (by_ alice 2000) 1
              Hr Hc Hp HS HB) as (s1 & H1 & Hsame & _).
  exists s1. split; [exact H1|].
  assert (Hd : confirmDelivery (by_ alice 2000) 1 one_pending = Ok tt one_delivered)
    by (vm_compute; reflexivity).
  destruct (Hsame tt one_delivered Hd) as (s2' & H2 & H3 & _).
  exists s2'. split; [exact H2 | exact H3].
Defined.

(** ** The logs against the storage *)

Lemma created_ids_app evs evs' :
  created_ids (evs ++ evs') = created_ids evs ++ created_ids evs'.
Proof.
  induction evs as [|ev evs IH]; [done|]. destruct ev; cbn; by rewrite IH.
Qed.

Lemma deposited_app evs evs' :
  deposited (evs ++ evs') = deposited evs + deposited evs'.
Proof.
  induction evs as [|ev evs IH]; [done|]. destruct ev; cbn; rewrite IH; lia.
Qed.

Lemma paid_out_snoc s l :
  sum_list (map snd (sent s ++ l)) = paid_out s + sum_list (map snd l).
Proof. unfold paid_out. by rewrite map_app, sum_list_app. Qed.

Lemma settlement_total s r :
  fee_of s r <= amount r -> sum_list (map snd (settlement s r)) = amount r.
Proof.
  intros H. unfold settlement. set (f := fee_of s r) in *. clearbody f.
  destruct (N.ltb_spec 0 f); cbn; lia.
Qed.

(** What a step adds to the event log. *)
Lemma step_events e c s s' :
  step e s c s' ->
  exists evs, events s' = events s ++ evs /\
    match c with
    | CreateEscrow v sl descr d =>
        evs = [EscrowCreated (nextEscrowId s) (msg_sender e) sl v descr]
    | _ => created_ids evs = [] /\ deposited evs = 0
    end.
Proof.
  destruct 1; cbn.
  - eexists; split; reflexivity.
  - eexists; split; [reflexivity|]. by split.
  - eexists; split; [by rewrite <- app_assoc|]. by split.
  - eexists; split; [reflexivity|]. by split.
  - eexists; split; [reflexivity|]. by split.
  - eexists; split; [reflexivity|]. by split.
  - eexists; split; [reflexivity|]. by split.
  - exists []. by rewrite app_nil_r.
  - exists []. by rewrite app_nil_r.
  - exists []. by rewrite app_nil_r.
Qed.

Lemma step_funds e c s s' :
  step e s c s' ->
  balance s' + paid_out s' + deposited (events s) =
  balance s + paid_out s + deposited (events s').
Proof.
  intros Hst.
  destruct (step_events e c s s' Hst) as (evs & Hev & Hc). rewrite Hev, deposited_app.
  destruct Hst; cbn in Hc;
    [subst evs | destruct Hc as [_ Hd]; rewrite Hd ..];
    unfold paid_out at 1; cbn [sent balance opened confirmed settled refunded disputed
                                 withdrawn set_platformFee set_platformWallet add_sent
                                 add_event set_balance set_escrows deposited].
  all: rewrite ?paid_out_snoc, ?settlement_confirmed, ?amount_confirmed.
  all: rewrite ?settlement_total by assumption.
  all: fold (paid_out s); cbn [map snd sum_list fold_right].
  all: lia.
Qed.

Lemma In_created_app evs evs' id b sl a descr :
  created_ids evs' = [] ->
  In (EscrowCreated id b sl a descr) (evs ++ evs') ->
  In (EscrowCreated id b sl a descr) evs.
Proof.
  intros Hnone Hin. apply in_app_or in Hin. destruct Hin as [?|Hin]; [done|].
  exfalso. induction evs' as [|ev evs' IH]; [done|].
  destruct Hin as [->|Hin]; [discriminate Hnone|].
  destruct ev; cbn in Hnone; try discriminate; by apply IH.
Qed.

(** X19. The event log agrees with the storage: in every reachable state
    the [EscrowCreated] events report the ids 1, 2, ... up to the counter,
    in order and each once, and each of them carries the buyer, seller,
    amount and description that the record of that id holds. *)
Theorem created_events_match_records (s : Contract) :
  reachable s ->
  created_ids (events s) = range 1 (nextEscrowId s) /\
  (forall id b sl a descr,
     In (EscrowCreated id b sl a descr) (events s) ->
     created s id /\
     buyer (escrow_at id s) = b /\ seller (escrow_at id s) = sl /\
     amount (escrow_at id s) = a /\ itemDescription (escrow_at id s) = descr).
Proof.
  revert s. apply (reachable_invariant (fun s =>
    created_ids (events s) = range 1 (nextEscrowId s) /\
    (forall id b sl a descr,
       In (EscrowCreated id b sl a descr) (events s) ->
       created s id /\
       buyer (escrow_at id s) = b /\ seller (escrow_at id s) = sl /\
       amount (escrow_at id s) = a /\ itemDescription (escrow_at id s) = descr))).
  - intros d w f. split; [reflexivity|]. intros id b sl a descr [].
  - intros e c s s' Hs [Hids Hrec] Hst.
    pose proof (wf_next s (reachable_wf s Hs)) as Hn.
    pose proof (step_next _ _ _ _ Hst) as Hmono.
    assert (Hold : forall id b sl a descr,
              In (EscrowCreated id b sl a descr) (events s) ->
              created s' id /\
              buyer (escrow_at id s') = b /\ seller (escrow_at id s') = sl /\
              amount (escrow_at id s') = a /\ itemDescription (escrow_at id s') = descr).
    { intros id b sl a descr Hin.
      destruct (Hrec _ _ _ _ _ Hin) as ([Hc1 Hc2] & <- & <- & <- & <-).
      destruct (step_terms _ _ _ _ id Hst Hc2) as ((-> & -> & -> & _ & _ & ->) & _).
      repeat split; try done. lia. }
    destruct (step_events _ _ _ _ Hst) as (evs & Hev & Hc). rewrite Hev.
    destruct Hst; cbn in Hc.
    1: { subst evs. split.
         - rewrite created_ids_app, Hids. cbn. by rewrite range_snoc by lia.
         - intros id b' sl' a' descr' Hin. apply in_app_or in Hin.
           destruct Hin as [Hin|[Heq|[]]]; [by apply Hold|].
           injection Heq as <- <- <- <- <-.
           rewrite escrow_at_opened. case_decide; [|done]. cbn.
           repeat split; try done; unfold created; cbn; lia. }
    all: destruct Hc as [Hnone _].
    all: split; [rewrite created_ids_app, Hnone, app_nil_r; exact Hids |].
    all: intros id' b' sl' a' descr' Hin.
    all: apply (In_created_app _ _ _ _ _ _ _ Hnone) in Hin.
    all: by apply Hold.
Qed.

Lemma created_events_match_records_witness :
  reachable two_pending /\
  created_ids (events two_pending) = [1; 2] /\
  In (EscrowCreated 2 carol bob 40 "lamp") (events two_pending) /\
  amount (escrow_at 2 two_pending) = 40.
Proof.
  assert (Hr : reachable two_pending)
    by (apply reachable_run, reachable_run, reach_deploy).
  destruct (created_events_match_records two_pending Hr) as (Hids & Hrec).
  assert (Hin : In (EscrowCreated 2 carol bob 40 "lamp") (events two_pending))
    by (vm_compute; right; left; reflexivity).
  split; [exact Hr | split; [exact Hids | split; [exact Hin |]]].
  exact (proj1 (proj2 (proj2 (proj2 (Hrec _ _ _ _ _ Hin))))).
Defined.

Lemma history_funds acts s k :
  balance s + paid_out s = k + deposited (events s) ->
  balance (history acts s) + paid_out (history acts s) =
  k + forced acts + deposited (events (history acts s)).
Proof.
  revert s k. induction acts as [|[e c|v] acts IH]; intros s k Hb.
  - cbn. lia.
  - cbn [history forced]. apply IH.
    cbn [act]. destruct (commit_step e c s) as [->|Hst]; [exact Hb|].
    pose proof (step_funds e c s _ Hst). lia.
  - cbn [history forced]. rewrite (IH (act (ForcePay v) s) (k + v)); [lia|].
    cbn [act].
    change (paid_out (set_balance (balance s + v) s)) with (paid_out s).
    change (events (set_balance (balance s + v) s)) with (events s).
    cbn. lia.
Qed.

(** X20. No funds appear or vanish: after any transactions, the owner's
    withdrawal included, and any payments forced into the contract, the
    balance plus everything the contract has paid out equals the funds it
    was deployed with, plus the payments forced in, plus the amounts its
    [EscrowCreated] events report. *)
Theorem funds_are_accounted_for (deployer wallet : address) (funds : N)
    (acts : list Action) :
  let s := history acts (constructor_ deployer wallet funds) in
  balance s + paid_out s = funds + forced acts + deposited (events s).
Proof.
  cbn zeta. apply history_funds. cbn. unfold paid_out. cbn. lia.
Qed.

(** The topped-up scenario: 140 escrowed and 5 forced in, 100 paid out on
    alice's confirmation, 45 left. *)
Example topped_up_funds :
  deposited (events topped_up) = 140 /\ forced topped_up_acts = 5 /\
  paid_out topped_up = 100 /\ balance topped_up = 45.
Proof. vm_compute. repeat split; reflexivity. Qed.
